(** * Ad segment detection engine of ad_detector (src/app/frame_classifier.py,
      src/app/gui.py, src/app/model_loader.py), shallowly embedded.

    Python floats are modelled as rationals [Q]; Python exceptions that the
    code can raise are modelled explicitly in the result type [res].  The
    [while current_time <= end_time] sampling loops are written as
    fuel-bounded recursion; [loop_fuel] is large enough whenever the sample
    interval is positive (lemma [loop_fuel_enough]). *)

From Stdlib Require Import ZArith QArith Qround Lqa Lia Bool Ascii String List.
Import ListNotations.
Open Scope Q_scope.
Open Scope string_scope.
Open Scope list_scope.
Open Scope Q_scope.

(** Exceptions raised by the embedded Python code. *)
Inductive exn :=
| ZeroDivisionError
| AttributeError
| KeyError
| IndexError
| BadZipFile        (* [zipfile] failing on a damaged archive *)
| CreateModelError. (* [timm.create_model] failing, e.g. a failed download *)

(** Outcome of a Python computation: a value, a raised exception, or the
    loop bound of the model exhausted (a non-terminating [while] loop). *)
Inductive res (A : Type) :=
| Ok (a : A)
| Raise (e : exn)
| OutOfFuel.
Arguments Ok {A} a.
Arguments Raise {A} e.
Arguments OutOfFuel {A}.

Definition res_bind {A B} (r : res A) (k : A -> res B) : res B :=
  match r with
  | Ok a => k a
  | Raise e => Raise e
  | OutOfFuel => OutOfFuel
  end.

Notation "'let!' x := r 'in' k" := (res_bind r (fun x => k))
  (at level 200, x name, r at level 100, k at level 200).

(** Python's [/] on floats: [ZeroDivisionError] on a zero divisor. *)
Definition py_div (a b : Q) : res Q :=
  if Qeq_bool b 0 then Raise ZeroDivisionError else Ok (a / b).

(** Python's [n: int] to float. *)
Definition float_of_nat (n : nat) : Q := inject_Z (Z.of_nat n).

(** ** Frame classification (frame_classifier.py, [classify_frame]) *)

(** Index of the first maximal entry of a row, as [torch.max(outputs, 1)]
    returns it. *)
Fixpoint argmax_go (l : list Q) (i bi : nat) (best : Q) : nat :=
  match l with
  | [] => bi
  | x :: r =>
      if negb (Qle_bool x best) then argmax_go r (S i) i x
      else argmax_go r (S i) bi best
  end.

Definition argmax (l : list Q) : nat :=
  match l with
  | [] => O
  | x :: r => argmax_go r 1 O x
  end.

(** ** Python dicts keyed by [(start, end)] float pairs: insertion-ordered
    association lists, keys compared numerically. *)

Definition Dict := list ((Q * Q) * Q).

Definition key_eqb (a b : Q * Q) : bool :=
  Qeq_bool (fst a) (fst b) && Qeq_bool (snd a) (snd b).

(** [d[k] = v]: an existing key keeps its place, a new key goes last. *)
Fixpoint dict_set (d : Dict) (k : Q * Q) (v : Q) : Dict :=
  match d with
  | [] => [(k, v)]
  | (k', v') :: d' => if key_eqb k k' then (k', v) :: d' else (k', v') :: dict_set d' k v
  end.

(** [d[k]]: [KeyError] on a missing key. *)
Fixpoint dict_get (d : Dict) (k : Q * Q) : res Q :=
  match d with
  | [] => Raise KeyError
  | (k', v') :: d' => if key_eqb k k' then Ok v' else dict_get d' k
  end.

(** [d.update(e)]. *)
Definition dict_update (d e : Dict) : Dict :=
  fold_left (fun acc kv => dict_set acc (fst kv) (snd kv)) e d.

(** [scores = [preds[(start, end)] for (start, end) in scenes]]. *)
Fixpoint lookup_scores (preds : Dict) (scenes : list (Q * Q)) : res (list Q) :=
  match scenes with
  | [] => Ok []
  | sc :: rest =>
      let! v := dict_get preds sc in
      let! vs := lookup_scores preds rest in
      Ok (v :: vs)
  end.

(** ** Decision stage ([_analyze_video] and [_is_advertisement], gui.py) *)

Definition base_thresh : Q := 25 # 2.
Definition boost : Q := 10.

Definition _is_advertisement (model_score base_thresh boost : Q)
    (is_isolated : bool) : bool :=
  let adjusted_thresh := if is_isolated then base_thresh else base_thresh - boost in
  Qle_bool adjusted_thresh model_score.

(** The [for i, score in enumerate(scores)] loop; [rest] holds the scores
    not yet visited, [preds_final] the ranges kept so far. *)
Fixpoint decide_go (running : bool) (scenes : list (Q * Q)) (scores : list Q)
    (i : nat) (rest : list Q) (preds_final : list (Q * Q)) : res (list (Q * Q)) :=
  match rest with
  | [] => Ok preds_final
  | score :: rest' =>
      if negb running then Ok preds_final
      else
        let prev_ad := Nat.ltb 0 i && Qle_bool base_thresh (nth (i - 1) scores 0) in
        let next_ad := Nat.ltb i (length scores - 1)
                       && Qle_bool base_thresh (nth (i + 1) scores 0) in
        let is_isolated := negb prev_ad && negb next_ad in
        let is_ad := _is_advertisement score base_thresh boost is_isolated in
        if is_ad then
          match nth_error scenes i with
          | Some sc => decide_go running scenes scores (S i) rest' (preds_final ++ [sc])
          | None => Raise IndexError
          end
        else decide_go running scenes scores (S i) rest' preds_final
  end.

Definition decide (running : bool) (scenes : list (Q * Q)) (scores : list Q)
    : res (list (Q * Q)) :=
  decide_go running scenes scores 0 scores [].

(** The decision rule as the spec (4.5) words it, for comparison. *)
Definition spec_effective_threshold (s : list Q) (i : nat) : Q :=
  let p := andb (Nat.ltb 0 i) (Qle_bool base_thresh (nth (i - 1) s 0)) in
  let n := andb (Nat.ltb (S i) (length s)) (Qle_bool base_thresh (nth (S i) s 0)) in
  if negb p && negb n then base_thresh else base_thresh - boost.

Definition spec_decide (scenes : list (Q * Q)) (s : list Q) : list (Q * Q) :=
  map snd (filter (fun p => Qle_bool (spec_effective_threshold s (fst p)) (nth (fst p) s 0))
                  (combine (seq 0 (length scenes)) scenes)).

(** ** Model loading (model_loader.py, [load_model]) *)

(** A loaded classifier: its architecture and the weights file it holds. *)
Record Handle := { arch : string; weights : string }.

Definition AVAILABLE_MODELS : list (string * string) :=
  [("Swin", "../models/ad_classifier_swin.pth")].

Fixpoint assoc_get {A} (d : list (string * A)) (k : string) : option A :=
  match d with
  | [] => None
  | (k', v) :: d' => if String.eqb k k' then Some v else assoc_get d' k
  end.

(** [str.replace(old, new)] for a non-empty [old]: every non-overlapping
    occurrence, left to right. *)
Fixpoint replace_go (fuel : nat) (pat rep s : string) : string :=
  match fuel with
  | O => s
  | S fuel' =>
      match s with
      | EmptyString => EmptyString
      | String c s' =>
          if String.prefix pat s
          then String.append rep (replace_go fuel' pat rep
                        (substring (String.length pat) (String.length s - String.length pat) s))
          else String c (replace_go fuel' pat rep s')
      end
  end.

Definition str_replace (pat rep s : string) : string :=
  replace_go (String.length s) pat rep s.

(** [x.replace(old, new)] on a value that may be [None]. *)
Definition py_replace (x : option string) (pat rep : string) : res string :=
  match x with
  | None => Raise AttributeError
  | Some s => Ok (str_replace pat rep s)
  end.

(** The environment as seen by the loader: whether a path exists, whether
    [torch.load] + [load_state_dict] succeed on a path (after any
    extraction), whether extracting a zip archive succeeds, and whether
    [timm.create_model(..., pretrained=True)] succeeds (it downloads the
    pretrained weights). *)
Record FileSystem := {
  path_exists : string -> bool;
  state_dict_loads : string -> bool;
  zip_extracts : string -> bool;
  create_model_ok : bool }.

(** [load_model(model_name)]: the returned value ([None] or a model) or the
    exception raised, and the new [PRELOADED_MODELS].  The zip extraction
    ([extract_model_if_needed(zip_path, '../ad_classifier_swin.pth')]) and
    [timm.create_model] run outside the [try]: their failures propagate. *)
Definition load_model (fs : FileSystem) (preloaded : list (string * Handle))
    (model_name : string) : res (option Handle) * list (string * Handle) :=
  match assoc_get preloaded model_name with
  | Some m => (Ok (Some m), preloaded)
  | None =>
      let model_path := assoc_get AVAILABLE_MODELS model_name in
      match py_replace model_path ".pth" ".zip" with
      | Raise e => (Raise e, preloaded)
      | OutOfFuel => (OutOfFuel, preloaded)
      | Ok zip_path =>
          if path_exists fs zip_path
             && negb (path_exists fs "../ad_classifier_swin.pth")
             && negb (zip_extracts fs zip_path)
          then (Raise BadZipFile, preloaded)
          else if negb (create_model_ok fs) then (Raise CreateModelError, preloaded)
          else
            let model := {| arch := "swin_tiny_patch4_window7_224";
                            weights := match model_path with Some p => p | None => "" end |} in
            match model_path with
            | Some p =>
                if negb (String.eqb p "") then
                  if state_dict_loads fs p
                  then (Ok (Some model), preloaded ++ [(model_name, model)])
                  else (Ok None, preloaded)
                else (Ok None, preloaded)
            | None => (Ok None, preloaded)
            end
      end
  end.

Section Engine.

(** A decoded frame, the preprocessed tensor, and the deterministic
    preprocessing pipeline ([cv2.cvtColor] BGR->RGB, then [transform]:
    resize to 224x224, [ToTensor], [Normalize]). *)
Context {Frame Tensor : Type}.
Context (preprocess : Frame -> Tensor).

(** A model maps the preprocessed tensor to its row of class scores. *)
Definition Model := Tensor -> list Q.

Definition classify_frame (frame : Frame) (model : Model) : nat :=
  argmax (model (preprocess frame)).

(** A [cv2.VideoCapture]: [cap.set(CAP_PROP_POS_MSEC, t*1000)] followed by
    [cap.read()] returns the frame at [t] seconds or nothing
    (end-of-stream / read failure). *)
Definition Capture := Q -> option Frame.

(** Bound on the iterations of the sampling loops.  The loops below add
    [frame_interval] to [current_time] exactly, where Python adds floats:
    there a step below half an ulp of [current_time] leaves it unchanged and
    the loop does not end, and sums can round onto [end_time].  The
    properties X1 and X2 are stated so that they do not depend on which
    timestamps are visited or on the loop ending. *)
Definition loop_fuel (start_time end_time frame_interval : Q) : nat :=
  S (Z.to_nat (Qceiling ((end_time - start_time) / frame_interval))).

(** ** [process_video_segments] *)

Fixpoint pvs_loop (fuel : nat) (cap : Capture) (model : Model)
    (end_time frame_interval current_time : Q)
    (total_frames ad_frames frame_count : nat) : res (nat * nat) :=
  match fuel with
  | O => if Qle_bool current_time end_time then OutOfFuel
         else Ok (total_frames, ad_frames)
  | S fuel' =>
      if Qle_bool current_time end_time then
        match cap current_time with
        | None => Ok (total_frames, ad_frames)
        | Some frame =>
            let total_frames := S total_frames in
            let label := classify_frame frame model in
            let ad_frames := if Nat.eqb label 0 then S ad_frames else ad_frames in
            pvs_loop fuel' cap model end_time frame_interval
              (current_time + frame_interval) total_frames ad_frames (S frame_count)
        end
      else Ok (total_frames, ad_frames)
  end.

Definition process_video_segments (cap : Capture) (model : Model)
    (start_time end_time frame_interval : Q) : res Q :=
  let! acc :=
    pvs_loop (loop_fuel start_time end_time frame_interval) cap model
      end_time frame_interval start_time 0 0 0 in
  let '(total_frames, ad_frames) := acc in
  if Nat.ltb 0 total_frames then
    Ok ((float_of_nat ad_frames / float_of_nat total_frames) * 100)
  else Ok 0.

(** ** [process_video_segments_weigth] *)

Fixpoint pvsw_loop (fuel : nat) (cap : Capture) (model : Model)
    (start_time end_time frame_interval segment_duration current_time : Q)
    (total_weighted_value total_weight : Q) : res (Q * Q) :=
  match fuel with
  | O => if Qle_bool current_time end_time then OutOfFuel
         else Ok (total_weighted_value, total_weight)
  | S fuel' =>
      if Qle_bool current_time end_time then
        match cap current_time with
        | None => Ok (total_weighted_value, total_weight)
        | Some frame =>
            let! frame_position := py_div (current_time - start_time) segment_duration in
            let weight := frame_position in
            let label := classify_frame frame model in
            let total_weight := total_weight + weight in
            let total_weighted_value :=
              if Nat.eqb label 0 then total_weighted_value + weight
              else total_weighted_value in
            pvsw_loop fuel' cap model start_time end_time frame_interval
              segment_duration (current_time + frame_interval)
              total_weighted_value total_weight
        end
      else Ok (total_weighted_value, total_weight)
  end.

Definition process_video_segments_weigth (cap : Capture) (model : Model)
    (start_time end_time frame_interval : Q) : res Q :=
  let segment_duration := end_time - start_time in
  let! acc :=
    pvsw_loop (loop_fuel start_time end_time frame_interval) cap model
      start_time end_time frame_interval segment_duration start_time 0 0 in
  let '(total_weighted_value, total_weight) := acc in
  if negb (Qle_bool total_weight 0) then
    Ok ((total_weighted_value / total_weight) * 100)
  else Ok 0.

(** ** [process_video_segments_after_] (a second copy of the unweighted
    scorer in the source, transcribed on its own) *)

Fixpoint pvsa_loop (fuel : nat) (cap : Capture) (model : Model)
    (end_time frame_interval current_time : Q)
    (total_frames ad_frames frame_count : nat) : res (nat * nat) :=
  match fuel with
  | O => if Qle_bool current_time end_time then OutOfFuel
         else Ok (total_frames, ad_frames)
  | S fuel' =>
      if Qle_bool current_time end_time then
        match cap current_time with
        | None => Ok (total_frames, ad_frames)
        | Some frame =>
            let total_frames := S total_frames in
            let label := classify_frame frame model in
            let ad_frames := if Nat.eqb label 0 then S ad_frames else ad_frames in
            pvsa_loop fuel' cap model end_time frame_interval
              (current_time + frame_interval) total_frames ad_frames (S frame_count)
        end
      else Ok (total_frames, ad_frames)
  end.

Definition process_video_segments_after_ (cap : Capture) (model : Model)
    (start_time end_time frame_interval : Q) : res Q :=
  let! acc :=
    pvsa_loop (loop_fuel start_time end_time frame_interval) cap model
      end_time frame_interval start_time 0 0 0 in
  let '(total_frames, ad_frames) := acc in
  if Nat.ltb 0 total_frames then
    Ok ((float_of_nat ad_frames / float_of_nat total_frames) * 100)
  else Ok 0.

(** ** The sampling schedule and reductions described in the spec (4.3) *)

(** [ts start interval k]: the [k]-th sample timestamp, obtained from
    [start] by adding the interval [k] times. *)
Fixpoint ts (start interval : Q) (k : nat) : Q :=
  match k with
  | O => start
  | S k' => ts start interval k' + interval
  end.

(** The samples a scorer obtains: timestamps from [t] on, stopping at the
    first one past [end_time] or without a frame. *)
Fixpoint gather (fuel : nat) (cap : Capture) (end_time interval t : Q)
    : list (Q * Frame) :=
  match fuel with
  | O => []
  | S fuel' =>
      if Qle_bool t end_time then
        match cap t with
        | None => []
        | Some frame => (t, frame) :: gather fuel' cap end_time interval (t + interval)
        end
      else []
  end.

Definition samples (cap : Capture) (start_time end_time interval : Q)
    : list (Q * Frame) :=
  gather (loop_fuel start_time end_time interval) cap end_time interval start_time.

Definition is_ad_sample (model : Model) (p : Q * Frame) : bool :=
  Nat.eqb (classify_frame (snd p) model) 0.

(** Unweighted reduction: percentage of Ad-labelled samples. *)
Definition unweighted_of (model : Model) (smp : list (Q * Frame)) : Q :=
  let n := length smp in
  let ad := length (filter (is_ad_sample model) smp) in
  if Nat.ltb 0 n then (float_of_nat ad / float_of_nat n) * 100 else 0.

Definition weight_of (start_time end_time : Q) (p : Q * Frame) : Q :=
  (fst p - start_time) / (end_time - start_time).

(** Weighted reduction: percentage of the weight carried by Ad samples. *)
Definition weighted_of (model : Model) (start_time end_time : Q)
    (smp : list (Q * Frame)) : Q :=
  let w := fold_left (fun acc p => acc + weight_of start_time end_time p) smp 0 in
  let wad := fold_left (fun acc p =>
               if is_ad_sample model p then acc + weight_of start_time end_time p
               else acc) smp 0 in
  if negb (Qle_bool w 0) then (wad / w) * 100 else 0.

(** ** Scene processing ([detect_ad_scenes_from_segments_and_get_all_results]
    and the thread-pool part of [VideoAnalyzerApp._analyze_video]) *)

(** One task: score each of its scenes with [process_video_segments_after_]
    (default [frame_interval=0.5]) into a fresh dict. *)
Fixpoint get_all_results_go (cap : Capture) (model : Model)
    (scenes : list (Q * Q)) (result_dict : Dict) : res Dict :=
  match scenes with
  | [] => Ok result_dict
  | (start, end_) :: rest =>
      let! result := process_video_segments_after_ cap model start end_ (1 # 2) in
      get_all_results_go cap model rest (dict_set result_dict (start, end_) result)
  end.

Definition detect_ad_scenes_from_segments_and_get_all_results (cap : Capture)
    (model : Model) (scenes : list (Q * Q)) : res Dict :=
  get_all_results_go cap model scenes [].

(** Submitting: one future per scene, each on the singleton list [[scene]],
    while the worker flag is up. *)
Fixpoint submit (running : bool) (scenes : list (Q * Q)) : list (list (Q * Q)) :=
  match scenes with
  | [] => []
  | scene :: rest => if negb running then [] else [scene] :: submit running rest
  end.

(** Collecting: [preds.update(future.result())] in submission order.  A
    task's result depends only on its own arguments (each task opens its own
    capture), so evaluating it at [result()] time gives the value the worker
    thread computed; an exception of the task is re-raised there. *)
Fixpoint collect (running : bool) (cap : Capture) (model : Model)
    (futures : list (list (Q * Q))) (preds : Dict) : res Dict :=
  match futures with
  | [] => Ok preds
  | fut :: rest =>
      if negb running then Ok preds
      else
        let! d := detect_ad_scenes_from_segments_and_get_all_results cap model fut in
        collect running cap model rest (dict_update preds d)
  end.

Definition parallel_scene_scores (running : bool) (cap : Capture) (model : Model)
    (scenes : list (Q * Q)) : res Dict :=
  collect running cap model (submit running scenes) [].

(** [_analyze_video] after [load_model] and [detect_scenes], with every read
    of [self.worker._is_running] seeing [running]; [analyze_video_reads]
    below lets a stop request arrive between any two reads. *)
Definition analyze_video (running : bool) (cap : Capture) (model : Model)
    (scenes : list (Q * Q)) : res (list (Q * Q)) :=
  match scenes with
  | [] => Ok []
  | _ :: _ =>
      let! preds := parallel_scene_scores running cap model scenes in
      match preds with
      | [] => Ok []
      | _ :: _ =>
          let! scores := lookup_scores preds scenes in
          decide running scenes scores
      end
  end.

End Engine.

(** ** Further scene-level callers (frame_classifier.py) *)

Section Callers.
Context {Frame Tensor : Type} (preprocess : Frame -> Tensor).

(** [detect_ad_scenes_from_segments]: [scenes] is [detect_scenes(video_path)]
    (PySceneDetect, external); each scene scored by
    [process_video_segments_after_] is kept when [result > threshold].  The
    [print] calls are not modelled. *)
Fixpoint detect_ad_scenes_go (cap : Capture) (model : Model) (threshold : Q)
    (scenes : list (Q * Q)) (res_acc : list (Q * Q)) : res (list (Q * Q)) :=
  match scenes with
  | [] => Ok res_acc
  | (start, end_) :: rest =>
      let! result := process_video_segments_after_ preprocess cap model start end_ (1 # 2) in
      detect_ad_scenes_go cap model threshold rest
        (if negb (Qle_bool result threshold) then res_acc ++ [(start, end_)] else res_acc)
  end.

Definition detect_ad_scenes_from_segments (cap : Capture) (model : Model)
    (scenes : list (Q * Q)) (threshold : Q) : res (list (Q * Q)) :=
  detect_ad_scenes_go cap model threshold scenes [].

(** A row [f"{name} {start} {end} {result}\n"] of the log file. *)
Record LogRow := { row_name : string; row_start : Q; row_end : Q; row_result : Q }.

(** [detect_ad_scenes_from_segments_and_get_all_results_to_logs]: the dict
    (or the exception raised) and the rows written and flushed to the log
    file, which stay written when a later scene raises. *)
Fixpoint to_logs_go (cap : Capture) (model : Model) (name : string)
    (scenes : list (Q * Q)) (result_dict : Dict) (log : list LogRow)
    : res Dict * list LogRow :=
  match scenes with
  | [] => (Ok result_dict, log)
  | (start, end_) :: rest =>
      match process_video_segments_weigth preprocess cap model start end_ (1 # 2) with
      | Ok result =>
          to_logs_go cap model name rest (dict_set result_dict (start, end_) result)
            (log ++ [{| row_name := name; row_start := start; row_end := end_;
                        row_result := result |}])
      | Raise e => (Raise e, log)
      | OutOfFuel => (OutOfFuel, log)
      end
  end.

Definition detect_ad_scenes_from_segments_and_get_all_results_to_logs
    (cap : Capture) (model : Model) (scenes : list (Q * Q)) (name : string)
    (log : list LogRow) : res Dict * list LogRow :=
  to_logs_go cap model name scenes [] log.

End Callers.

(** ** Stop requests during [_analyze_video] (gui.py) *)

(** [self.worker._is_running] is read before each submission, before each
    [future.result()] and before each step of the decision loop, and
    [Worker.stop] (called from [closeEvent]) may clear it between any two
    reads.  [flag n] is the value the [n]-th of these reads sees; each loop
    returns the index of the next read. *)
Section StopRequests.
Context {Frame Tensor : Type} (preprocess : Frame -> Tensor).

Fixpoint submit_reads (flag : nat -> bool) (n : nat) (scenes : list (Q * Q))
    : list (list (Q * Q)) * nat :=
  match scenes with
  | [] => ([], n)
  | scene :: rest =>
      if negb (flag n) then ([], S n)
      else let '(futures, n') := submit_reads flag (S n) rest in ([scene] :: futures, n')
  end.

Fixpoint collect_reads (flag : nat -> bool) (n : nat) (cap : Capture) (model : Model)
    (futures : list (list (Q * Q))) (preds : Dict) : res (Dict * nat) :=
  match futures with
  | [] => Ok (preds, n)
  | fut :: rest =>
      if negb (flag n) then Ok (preds, S n)
      else
        let! d := detect_ad_scenes_from_segments_and_get_all_results preprocess cap model fut in
        collect_reads flag (S n) cap model rest (dict_update preds d)
  end.

Fixpoint decide_reads_go (flag : nat -> bool) (n : nat) (scenes : list (Q * Q))
    (scores : list Q) (i : nat) (rest : list Q) (preds_final : list (Q * Q))
    : res (list (Q * Q)) :=
  match rest with
  | [] => Ok preds_final
  | score :: rest' =>
      if negb (flag n) then Ok preds_final
      else
        let prev_ad := Nat.ltb 0 i && Qle_bool base_thresh (nth (i - 1) scores 0) in
        let next_ad := Nat.ltb i (length scores - 1)
                       && Qle_bool base_thresh (nth (i + 1) scores 0) in
        let is_isolated := negb prev_ad && negb next_ad in
        let is_ad := _is_advertisement score base_thresh boost is_isolated in
        if is_ad then
          match nth_error scenes i with
          | Some sc => decide_reads_go flag (S n) scenes scores (S i) rest' (preds_final ++ [sc])
          | None => Raise IndexError
          end
        else decide_reads_go flag (S n) scenes scores (S i) rest' preds_final
  end.

Definition analyze_video_reads (flag : nat -> bool) (cap : Capture) (model : Model)
    (scenes : list (Q * Q)) : res (list (Q * Q)) :=
  match scenes with
  | [] => Ok []
  | _ :: _ =>
      let '(futures, n1) := submit_reads flag 0 scenes in
      let! acc := collect_reads flag n1 cap model futures [] in
      let '(preds, n2) := acc in
      match preds with
      | [] => Ok []
      | _ :: _ =>
          let! scores := lookup_scores preds scenes in
          decide_reads_go flag n2 scenes scores 0 scores []
      end
  end.

End StopRequests.

(** ** Python numeric helpers *)

(** [a // b] and [a % b] on floats, for [b <> 0], computed exactly.  For
    [b = 60] and a float [0 <= a < 2^53], Python's results are these: [fmod]
    is exact, [a - fmod(a, 60)] is then a multiple of 60 below [2^53], hence
    a float, and dividing it by 60 gives an integer.  Outside that range
    Python rounds ([-1e-20 % 60 == 60.0]), so the theorems below that use
    them assume it. *)
Definition py_floordiv (a b : Q) : Q := inject_Z (Qfloor (a / b)).
Definition py_fmod (a b : Q) : Q := a - b * inject_Z (Qfloor (a / b)).

(** [int(x)] on a float: truncation toward zero. *)
Definition py_int_of_float (x : Q) : Z :=
  if Qle_bool 0 x then Qfloor x else (- Qfloor (- x))%Z.

(** ** Time codes (player.py, [format_time] and [parse_time]) *)

Definition digit_char (d : Z) : ascii := ascii_of_nat (48 + Z.to_nat d).

(** Decimal digits of [n >= 0], most significant first, prepended to [acc]. *)
Fixpoint str_of_Z_go (fuel : nat) (n : Z) (acc : string) : string :=
  match fuel with
  | O => acc
  | S fuel' =>
      let acc' := String (digit_char (n mod 10)) acc in
      if Z.ltb n 10 then acc' else str_of_Z_go fuel' (n / 10) acc'
  end.

Definition str_of_nonneg (n : Z) : string :=
  str_of_Z_go (S (Z.to_nat (Z.log2 n))) n "".

(** [f"{n:02d}"]. *)
Definition fmt02 (n : Z) : string :=
  if Z.ltb n 0 then String "-" (str_of_nonneg (- n))
  else if Z.ltb n 10 then String "0" (str_of_nonneg n)
  else str_of_nonneg n.

Definition format_time (seconds : Q) : string :=
  let minutes := py_int_of_float (py_floordiv seconds 60) in
  let secs := py_int_of_float (py_fmod seconds 60) in
  String.append (fmt02 minutes) (String ":" (fmt02 secs)).

(** [str.isspace] on one ASCII character: [\t \n \x0b \x0c \r], [\x1c]-[\x1f]
    and space.  Text is modelled as ASCII strings. *)
Definition py_isspace (c : ascii) : bool :=
  let n := nat_of_ascii c in
  (Nat.leb 9 n && Nat.leb n 13) || (Nat.leb 28 n && Nat.leb n 32).

Fixpoint lstrip (s : string) : string :=
  match s with
  | EmptyString => EmptyString
  | String c r => if py_isspace c then lstrip r else s
  end.

Fixpoint rstrip (s : string) : string :=
  match s with
  | EmptyString => EmptyString
  | String c r =>
      let r' := rstrip r in
      match r' with
      | EmptyString => if py_isspace c then EmptyString else String c EmptyString
      | _ => String c r'
      end
  end.

(** [str.strip()]. *)
Definition strip (s : string) : string := rstrip (lstrip s).

Definition is_digit (c : ascii) : bool :=
  let n := nat_of_ascii c in Nat.leb 48 n && Nat.leb n 57.

Definition digit_val (c : ascii) : Z := Z.of_nat (nat_of_ascii c - 48).

(** Digits with single underscores between them, as [int] accepts them:
    the value and the number of digits, or [None] (ValueError). *)
Fixpoint parse_digits (s : string) (acc : Z) (prev_digit : bool) (ndigits : nat)
    : option (Z * nat) :=
  match s with
  | EmptyString => if prev_digit then Some (acc, ndigits) else None
  | String c r =>
      if is_digit c then parse_digits r (acc * 10 + digit_val c) true (S ndigits)
      else if Ascii.eqb c "_" && prev_digit then parse_digits r acc false ndigits
      else None
  end.

(** [int(text)] on a [str] in base 10: surrounding whitespace, an optional
    sign, digits; more than 4300 digits is a ValueError (CPython's
    int/str conversion limit).  [None] stands for the ValueError. *)
Definition py_int (text : string) : option Z :=
  let t := strip text in
  let digits (u : string) :=
    match parse_digits u 0 false 0 with
    | Some (v, nd) => if Nat.leb nd 4300 then Some v else None
    | None => None
    end in
  match t with
  | String c r =>
      if Ascii.eqb c "+" then digits r
      else if Ascii.eqb c "-" then option_map Z.opp (digits r)
      else digits t
  | EmptyString => None
  end.

Fixpoint str_has_colon (s : string) : bool :=
  match s with
  | EmptyString => false
  | String c r => Ascii.eqb c ":" || str_has_colon r
  end.

(** [s.split(':')]. *)
Fixpoint split_colon (s : string) : list string :=
  match s with
  | EmptyString => [EmptyString]
  | String c r =>
      let parts := split_colon r in
      if Ascii.eqb c ":" then EmptyString :: parts
      else match parts with
           | p :: ps => String c p :: ps
           | [] => [String c EmptyString]
           end
  end.

(** [list(map(int, parts))]: [None] if one of them raises ValueError. *)
Fixpoint map_py_int (parts : list string) : option (list Z) :=
  match parts with
  | [] => Some []
  | p :: ps =>
      match py_int p, map_py_int ps with
      | Some v, Some vs => Some (v :: vs)
      | _, _ => None
      end
  end.

Definition parse_time (text : string) : option Z :=
  let text := strip text in
  if str_has_colon text then
    match map_py_int (split_colon text) with
    | Some [minutes; seconds] => Some (minutes * 60 + seconds)%Z
    | Some [x] => Some x
    | Some _ => None
    | None => None
    end
  else py_int text.

(** ** Ad marks on the position slider (player.py, [AdSlider._calculate_segments]) *)

Record QRect := { rect_x : Z; rect_y : Z; rect_w : Z; rect_h : Z }.

Definition _calculate_segments (ad_timestamps : list (Q * Q)) (total_duration : Q)
    (groove_rect : QRect) : list QRect :=
  if match ad_timestamps with [] => true | _ => false end
     || Qeq_bool total_duration 0 then []
  else
    let groove_width := rect_w groove_rect in
    let width_multiplier := inject_Z groove_width / total_duration in
    map (fun se =>
           let start_pos := py_int_of_float (fst se * width_multiplier) in
           let end_pos := py_int_of_float (snd se * width_multiplier) in
           {| rect_x := rect_x groove_rect + start_pos; rect_y := rect_y groove_rect;
              rect_w := end_pos - start_pos; rect_h := rect_h groove_rect |})
        ad_timestamps.

(** ** Results report (gui.py, [_update_results_display]) *)

(** The total ad duration line of the report: [total_duration] is
    [sum(end - start for start, end in self.timecodes)] (a float sum, taken
    here as given), split into [int(total_duration // 60)] minutes and
    [int(total_duration % 60)] seconds.  The HTML text around it is not
    modelled. *)
Definition duration_split (total_duration : Q) : Z * Z :=
  let minutes := py_int_of_float (py_floordiv total_duration 60) in
  let seconds := py_int_of_float (py_fmod total_duration 60) in
  (minutes, seconds).

(** ** Background worker (gui.py, [Worker.run]) *)

Inductive Signal (A : Type) :=
| SigResult (a : A)
| SigError (e : exn)
| SigFinished.
Arguments SigResult {A} a.
Arguments SigError {A} e.
Arguments SigFinished {A}.

(** The signals [run] emits, given the outcome of [classify_func] and the
    value of [_is_running] at its three reads: on entry, after the call (or
    in the handler), and in [finally].  An [OutOfFuel] outcome is a call
    that never returns. *)
Definition worker_run {A} (running0 running1 running2 : bool) (r : res A) : list (Signal A) :=
  let finally := if running2 then [SigFinished] else [] in
  if negb running0 then finally
  else
    match r with
    | Ok a => (if running1 then [SigResult a] else []) ++ finally
    | Raise e => (if running1 then [SigError e] else []) ++ finally
    | OutOfFuel => []
    end.

(** ** Preloading (model_loader.py, [preload_all_models]) *)

Fixpoint preload_go (fs : FileSystem) (names : list string) (preloaded : list (string * Handle))
    : res unit * list (string * Handle) :=
  match names with
  | [] => (Ok tt, preloaded)
  | n :: rest =>
      match load_model fs preloaded n with
      | (Raise e, st) => (Raise e, st)
      | (OutOfFuel, st) => (OutOfFuel, st)
      | (Ok _, st) => preload_go fs rest st
      end
  end.

Definition preload_all_models (fs : FileSystem) (preloaded : list (string * Handle))
    : res unit * list (string * Handle) :=
  preload_go fs (map fst AVAILABLE_MODELS) preloaded.

(** ** Concrete inputs used by the witnesses and counterexamples *)

(** Frames are numbered; preprocessing is the identity. *)
Definition id_frame (x : nat) : nat := x.

(** Even-numbered frames score higher on class 0 (Ad), odd ones on class 1. *)
Definition model_demo : nat -> list Q :=
  fun n => if Nat.even n then [1; 0] else [0; 1].

(** A 3-second video with frame [floor (2 t)] at time [t]. *)
Definition cap_demo : Q -> option nat :=
  fun t => if Qle_bool 0 t && Qle_bool t 3 then Some (Z.to_nat (Qfloor (2 * t))) else None.

(** The same video with an Ad frame, resp. a Content frame, at time 0. *)
Definition cap_ad_at_0 : Q -> option nat :=
  fun t => if Qeq_bool t 0 then Some 0%nat else cap_demo t.
Definition cap_content_at_0 : Q -> option nat :=
  fun t => if Qeq_bool t 0 then Some 1%nat else cap_demo t.

(** A source that yields one Ad frame at time 0 and then ends. *)
Definition cap_first_only : Q -> option nat :=
  fun t => if Qeq_bool t 0 then Some 0%nat else None.

Definition fs_demo : FileSystem :=
  {| path_exists := fun _ => false; state_dict_loads := fun _ => true;
     zip_extracts := fun _ => true; create_model_ok := true |}.

(** * Proofs *)

(** ** Arithmetic of timestamps and loop bounds *)

Lemma float_of_nat_S n : float_of_nat (S n) == float_of_nat n + 1.
Proof.
  unfold float_of_nat. rewrite Nat2Z.inj_succ, <- Z.add_1_r, inject_Z_plus.
  reflexivity.
Qed.

Lemma float_of_nat_ge1 n : (1 <= n)%nat -> 1 <= float_of_nat n.
Proof.
  intro H. unfold float_of_nat. change 1 with (inject_Z 1).
  rewrite <- Zle_Qle. lia.
Qed.

Lemma ts_shift start i k : ts (start + i) i k = ts start i (S k).
Proof. induction k as [|k IH]; simpl; [reflexivity | now rewrite IH]. Qed.

Lemma ts_shift' start i k : ts (start + i) i k = ts start i k + i.
Proof. exact (ts_shift start i k). Qed.

Lemma ts_closed start i k : ts start i k == start + float_of_nat k * i.
Proof.
  induction k as [|k IH]; simpl.
  - unfold float_of_nat. simpl. ring.
  - rewrite IH, float_of_nat_S. ring.
Qed.

Lemma fuel_step t i f : t + float_of_nat (S f) * i == (t + i) + float_of_nat f * i.
Proof. rewrite float_of_nat_S. ring. Qed.

Lemma fuel_zero t i : t + float_of_nat 0 * i == t.
Proof. unfold float_of_nat. simpl. ring. Qed.

Lemma Qle_bool_false x y : y < x -> Qle_bool x y = false.
Proof.
  intro H. apply not_true_iff_false. rewrite Qle_bool_iff.
  intro H'. apply (Qlt_not_le _ _ H H').
Qed.

(** The bound [loop_fuel] outlasts the loop for a positive interval. *)
Lemma loop_fuel_enough start end_time i :
  0 < i -> end_time < start + float_of_nat (loop_fuel start end_time i) * i.
Proof.
  intro Hi. unfold loop_fuel.
  set (x := (end_time - start) / i).
  assert (Hx : x * i == end_time - start).
  { unfold x. field. intro H0. rewrite H0 in Hi. apply (Qlt_irrefl 0 Hi). }
  assert (Hc : x + 1 <= float_of_nat (S (Z.to_nat (Qceiling x)))).
  { rewrite float_of_nat_S. apply Qplus_le_compat; [|apply Qle_refl].
    apply Qle_trans with (inject_Z (Qceiling x)); [apply Qle_ceiling|].
    unfold float_of_nat. rewrite <- Zle_Qle. lia. }
  apply Qlt_le_trans with (start + (x + 1) * i).
  - assert (E : start + (x + 1) * i == end_time + i) by (rewrite Qmult_plus_distr_l, Hx; ring).
    rewrite E. lra.
  - apply Qplus_le_compat; [apply Qle_refl|].
    apply Qmult_le_compat_r; [exact Hc | lra].
Qed.

Section LoopProofs.
Context {Frame Tensor : Type} (preprocess : Frame -> Tensor).

Lemma pvs_loop_gather (cap : Q -> option Frame) (model : Tensor -> list Q) end_time i :
  forall fuel t tot ad cnt,
  end_time < t + float_of_nat fuel * i ->
  pvs_loop preprocess fuel cap model end_time i t tot ad cnt =
  Ok (tot + length (gather fuel cap end_time i t),
      ad + length (filter (is_ad_sample preprocess model) (gather fuel cap end_time i t)))%nat.
Proof.
  induction fuel as [|fuel IH]; intros t tot ad cnt Hf; simpl.
  - rewrite fuel_zero in Hf. rewrite (Qle_bool_false _ _ Hf).
    f_equal; f_equal; lia.
  - destruct (Qle_bool t end_time) eqn:Hb; [|simpl; f_equal; f_equal; lia].
    destruct (cap t) as [fr|]; [|simpl; f_equal; f_equal; lia].
    rewrite IH by (rewrite <- fuel_step; exact Hf).
    simpl. unfold is_ad_sample. simpl.
    destruct (Nat.eqb (classify_frame preprocess fr model) 0); simpl;
      f_equal; f_equal; lia.
Qed.

Lemma pvsa_loop_gather (cap : Q -> option Frame) (model : Tensor -> list Q) end_time i :
  forall fuel t tot ad cnt,
  end_time < t + float_of_nat fuel * i ->
  pvsa_loop preprocess fuel cap model end_time i t tot ad cnt =
  Ok (tot + length (gather fuel cap end_time i t),
      ad + length (filter (is_ad_sample preprocess model) (gather fuel cap end_time i t)))%nat.
Proof.
  induction fuel as [|fuel IH]; intros t tot ad cnt Hf; simpl.
  - rewrite fuel_zero in Hf. rewrite (Qle_bool_false _ _ Hf).
    f_equal; f_equal; lia.
  - destruct (Qle_bool t end_time) eqn:Hb; [|simpl; f_equal; f_equal; lia].
    destruct (cap t) as [fr|]; [|simpl; f_equal; f_equal; lia].
    rewrite IH by (rewrite <- fuel_step; exact Hf).
    simpl. unfold is_ad_sample. simpl.
    destruct (Nat.eqb (classify_frame preprocess fr model) 0); simpl;
      f_equal; f_equal; lia.
Qed.

Lemma pvsw_loop_gather (cap : Q -> option Frame) (model : Tensor -> list Q) start end_time i dur :
  forall fuel t A W,
  end_time < t + float_of_nat fuel * i ->
  (Qeq_bool dur 0 = false \/ gather fuel cap end_time i t = []) ->
  pvsw_loop preprocess fuel cap model start end_time i dur t A W =
  Ok (fold_left (fun acc p => if is_ad_sample preprocess model p
                              then acc + (fst p - start) / dur else acc)
                (gather fuel cap end_time i t) A,
      fold_left (fun acc p => acc + (fst p - start) / dur)
                (gather fuel cap end_time i t) W).
Proof.
  induction fuel as [|fuel IH]; intros t A W Hf Hd; simpl.
  - rewrite fuel_zero in Hf. rewrite (Qle_bool_false _ _ Hf). reflexivity.
  - destruct (Qle_bool t end_time) eqn:Hb; [|reflexivity].
    destruct (cap t) as [fr|] eqn:Hc; [|reflexivity].
    assert (Hd' : Qeq_bool dur 0 = false).
    { destruct Hd as [Hd|Hd]; [exact Hd|]. simpl in Hd. rewrite Hb, Hc in Hd. discriminate. }
    unfold py_div. rewrite Hd'. simpl.
    rewrite IH by (rewrite <- ?fuel_step; auto).
    change (is_ad_sample preprocess model (t, fr))
      with (Nat.eqb (classify_frame preprocess fr model) 0).
    reflexivity.
Qed.

(** Shape of the gathered samples. *)
Lemma gather_nth (cap : Q -> option Frame) end_time i :
  forall fuel t k p,
  nth_error (gather fuel cap end_time i t) k = Some p ->
  fst p = ts t i k /\ ts t i k <= end_time /\ cap (ts t i k) = Some (snd p).
Proof.
  induction fuel as [|fuel IH]; intros t k p H; simpl in H.
  - destruct k; discriminate.
  - destruct (Qle_bool t end_time) eqn:Hb; [|destruct k; discriminate].
    destruct (cap t) as [fr|] eqn:Hc; [|destruct k; discriminate].
    destruct k as [|k]; simpl in H.
    + injection H as <-. simpl. split; [reflexivity|].
      split; [apply Qle_bool_imp_le; exact Hb | exact Hc].
    + rewrite <- ts_shift. apply IH. exact H.
Qed.

Lemma gather_stop (cap : Q -> option Frame) end_time i :
  forall fuel t,
  end_time < t + float_of_nat fuel * i ->
  end_time < ts t i (length (gather fuel cap end_time i t))
  \/ cap (ts t i (length (gather fuel cap end_time i t))) = None.
Proof.
  induction fuel as [|fuel IH]; intros t Hf; simpl.
  - left. rewrite fuel_zero in Hf. exact Hf.
  - destruct (Qle_bool t end_time) eqn:Hb.
    + destruct (cap t) as [fr|] eqn:Hc; simpl.
      * rewrite <- ts_shift'. apply IH. rewrite <- fuel_step. exact Hf.
      * right. exact Hc.
    + left. simpl. apply Qnot_le_lt. intro H. apply Qle_bool_iff in H. congruence.
Qed.

End LoopProofs.

Section ScoreProofs.
Context {Frame Tensor : Type} (preprocess : Frame -> Tensor).

Lemma process_video_segments_samples (cap : Q -> option Frame)
    (model : Tensor -> list Q) start end_time i :
  0 < i ->
  process_video_segments preprocess cap model start end_time i
  = Ok (unweighted_of preprocess model (samples cap start end_time i)).
Proof.
  intro Hi. unfold process_video_segments, unweighted_of, samples.
  rewrite pvs_loop_gather by (apply loop_fuel_enough; exact Hi).
  cbv beta iota delta [res_bind]. simpl Nat.add.
  destruct (Nat.ltb _ _); reflexivity.
Qed.

Lemma process_video_segments_after_samples (cap : Q -> option Frame)
    (model : Tensor -> list Q) start end_time i :
  0 < i ->
  process_video_segments_after_ preprocess cap model start end_time i
  = Ok (unweighted_of preprocess model (samples cap start end_time i)).
Proof.
  intro Hi. unfold process_video_segments_after_, unweighted_of, samples.
  rewrite pvsa_loop_gather by (apply loop_fuel_enough; exact Hi).
  cbv beta iota delta [res_bind]. simpl Nat.add.
  destruct (Nat.ltb _ _); reflexivity.
Qed.

Lemma process_video_segments_weigth_samples (cap : Q -> option Frame)
    (model : Tensor -> list Q) start end_time i :
  0 < i ->
  (Qeq_bool (end_time - start) 0 = false \/ samples cap start end_time i = []) ->
  process_video_segments_weigth preprocess cap model start end_time i
  = Ok (weighted_of preprocess model start end_time (samples cap start end_time i)).
Proof.
  intros Hi Hd. unfold process_video_segments_weigth, weighted_of, weight_of, samples.
  unfold samples in Hd.
  rewrite pvsw_loop_gather by (try apply loop_fuel_enough; assumption).
  cbv beta iota delta [res_bind].
  destruct (negb _); reflexivity.
Qed.

(** A scene stopped by end-of-stream, or of positive length, never reaches
    the division by a zero [segment_duration]. *)
Lemma truncated_no_zero_duration (cap : Q -> option Frame) start end_time i :
  0 < i ->
  let n := length (samples cap start end_time i) in
  (ts start i n <= end_time /\ cap (ts start i n) = None) \/ start < end_time ->
  Qeq_bool (end_time - start) 0 = false \/ samples cap start end_time i = [].
Proof.
  intros Hi n H. subst n.
  destruct (Qeq_bool (end_time - start) 0) eqn:Hz; [|left; reflexivity].
  apply Qeq_bool_iff in Hz.
  destruct H as [[Hle _]|Hlt]; [|exfalso; lra].
  right. destruct (samples cap start end_time i) as [|p rest] eqn:Hs; [reflexivity|].
  exfalso. rewrite ts_closed in Hle.
  assert (H1 : 1 <= float_of_nat (length (p :: rest))) by (apply float_of_nat_ge1; simpl; lia).
  assert (H2 : 1 * i <= float_of_nat (length (p :: rest)) * i)
    by (apply Qmult_le_compat_r; [exact H1 | lra]).
  lra.
Qed.

Lemma pvs_loop_pvsa_loop (cap : Q -> option Frame) (model : Tensor -> list Q)
    end_time i :
  forall fuel t tot ad cnt,
  pvs_loop preprocess fuel cap model end_time i t tot ad cnt
  = pvsa_loop preprocess fuel cap model end_time i t tot ad cnt.
Proof.
  induction fuel as [|fuel IH]; intros t tot ad cnt; simpl; [reflexivity|].
  destruct (Qle_bool t end_time); [|reflexivity].
  destruct (cap t); [apply IH | reflexivity].
Qed.

End ScoreProofs.

Section ScorerClaims.
Context {Frame Tensor : Type} (preprocess : Frame -> Tensor).

(** C3: the unweighted score (both copies of the scorer) is
    [100 * (Ad samples) / (samples)], and [0.0] when no sample was
    obtained. *)
Theorem unweighted_score_formula (cap : Q -> option Frame) (model : Tensor -> list Q)
    (start end_time interval : Q) :
  0 < interval ->
  let smp := samples cap start end_time interval in
  let n := length smp in
  let ad := length (filter (is_ad_sample preprocess model) smp) in
  (n = 0%nat ->
     process_video_segments preprocess cap model start end_time interval = Ok 0
     /\ process_video_segments_after_ preprocess cap model start end_time interval = Ok 0)
  /\ (n <> 0%nat -> exists q,
     process_video_segments preprocess cap model start end_time interval = Ok q
     /\ process_video_segments_after_ preprocess cap model start end_time interval = Ok q
     /\ q == 100 * float_of_nat ad / float_of_nat n).
Proof.
  intros Hi smp n ad.
  rewrite process_video_segments_samples, process_video_segments_after_samples by exact Hi.
  fold smp. unfold unweighted_of. change (length smp) with n.
  change (length (filter (is_ad_sample preprocess model) smp)) with ad.
  split; intro Hn.
  - rewrite Hn. split; reflexivity.
  - assert (Hlt : Nat.ltb 0 n = true) by (apply Nat.ltb_lt; lia).
    rewrite Hlt. eexists. split; [reflexivity|]. split; [reflexivity|].
    assert (Hn1 : 1 <= float_of_nat n) by (apply float_of_nat_ge1; lia).
    field. intro H0. lra.
Qed.

(** C7: on a 2-class output row [[o0; o1]], [classify_frame] returns the
    index of the maximum (0 on a tie, the first maximum); the unweighted
    scorers count a sample as Ad exactly when that index is 0. *)
Theorem classify_frame_argmax (frame : Frame) (model : Tensor -> list Q) (o0 o1 : Q) :
  model (preprocess frame) = [o0; o1] ->
  (classify_frame preprocess frame model = 0%nat <-> o1 <= o0)
  /\ (classify_frame preprocess frame model = 1%nat <-> o0 < o1)
  /\ (forall (cap : Q -> option Frame) start end_time interval, 0 < interval ->
      let smp := samples cap start end_time interval in
      let ad := length (filter (fun p => Nat.eqb (classify_frame preprocess (snd p) model) 0) smp) in
      let score := if Nat.ltb 0 (length smp)
                   then (float_of_nat ad / float_of_nat (length smp)) * 100 else 0 in
      process_video_segments preprocess cap model start end_time interval = Ok score
      /\ process_video_segments_after_ preprocess cap model start end_time interval = Ok score).
Proof.
  intro Hm. split; [|split].
  - unfold classify_frame, argmax. rewrite Hm. simpl.
    destruct (Qle_bool o1 o0) eqn:E; simpl.
    + apply Qle_bool_iff in E. tauto.
    + split; [discriminate|]. intro H. apply Qle_bool_iff in H. congruence.
  - unfold classify_frame, argmax. rewrite Hm. simpl.
    destruct (Qle_bool o1 o0) eqn:E; simpl.
    + apply Qle_bool_iff in E. split; [discriminate|]. intro H. exfalso. lra.
    + split; [intros _|reflexivity]. apply Qnot_le_lt. intro H.
      apply Qle_bool_iff in H. congruence.
  - intros cap start end_time interval Hi smp ad score.
    rewrite process_video_segments_samples, process_video_segments_after_samples by exact Hi.
    split; reflexivity.
Qed.

(** C9: [process_video_segments] and [process_video_segments_after_] are
    the same function. *)
Theorem unweighted_variants_equivalent (cap : Q -> option Frame)
    (model : Tensor -> list Q) (start end_time interval : Q) :
  process_video_segments preprocess cap model start end_time interval
  = process_video_segments_after_ preprocess cap model start end_time interval.
Proof.
  unfold process_video_segments, process_video_segments_after_.
  rewrite pvs_loop_pvsa_loop. reflexivity.
Qed.

End ScorerClaims.

(** ** Sums of weights *)

Section WeightSums.
Context {A : Type}.

Lemma fold_left_Qeq (f : Q -> A -> Q) (l : list A) :
  (forall a b p, a == b -> f a p == f b p) ->
  forall a b, a == b -> fold_left f l a == fold_left f l b.
Proof.
  intro Hf. induction l as [|p l IH]; intros a b Hab; simpl; [exact Hab|].
  apply IH. apply Hf. exact Hab.
Qed.

Lemma fold_sum_ge (g : A -> Q) (l : list A) :
  (forall p, In p l -> 0 <= g p) ->
  forall a, a <= fold_left (fun acc p => acc + g p) l a.
Proof.
  induction l as [|p l IH]; intros Hg a; simpl; [apply Qle_refl|].
  apply Qle_trans with (a + g p).
  - assert (0 <= g p) by (apply Hg; left; reflexivity). lra.
  - apply IH. intros q Hq. apply Hg. right. exact Hq.
Qed.

Lemma fold_sum_gt (g : A -> Q) (l : list A) :
  (forall p, In p l -> 0 <= g p) ->
  (exists p, In p l /\ 0 < g p) ->
  forall a, a < fold_left (fun acc p => acc + g p) l a.
Proof.
  induction l as [|p l IH]; intros Hg [q [Hq Hpos]] a; simpl; [destruct Hq|].
  destruct Hq as [Heq|Hq].
  - subst q. apply Qlt_le_trans with (a + g p); [lra|].
    apply fold_sum_ge. intros r Hr. apply Hg. right. exact Hr.
  - apply Qle_lt_trans with (a + g p).
    + assert (0 <= g p) by (apply Hg; left; reflexivity). lra.
    + apply IH; [intros r Hr; apply Hg; right; exact Hr | exists q; split; assumption].
Qed.

Lemma fold_sum_zero (g : A -> Q) (l : list A) :
  (forall p, In p l -> g p == 0) ->
  forall a, fold_left (fun acc p => acc + g p) l a == a.
Proof.
  induction l as [|p l IH]; intros Hg a; simpl; [apply Qeq_refl|].
  rewrite IH by (intros r Hr; apply Hg; right; exact Hr).
  rewrite (Hg p) by (left; reflexivity). ring.
Qed.

Lemma fold_cond_all (c : A -> bool) (g : A -> Q) (l : list A) :
  (forall p, In p l -> c p = true) ->
  forall a, fold_left (fun acc p => if c p then acc + g p else acc) l a
            = fold_left (fun acc p => acc + g p) l a.
Proof.
  induction l as [|p l IH]; intros Hc a; simpl; [reflexivity|].
  rewrite (Hc p) by (left; reflexivity).
  apply IH. intros q Hq. apply Hc. right. exact Hq.
Qed.

Lemma fold_cond_none (c : A -> bool) (g : A -> Q) (l : list A) :
  (forall p, In p l -> c p = false) ->
  forall a, fold_left (fun acc p => if c p then acc + g p else acc) l a = a.
Proof.
  induction l as [|p l IH]; intros Hc a; simpl; [reflexivity|].
  rewrite (Hc p) by (left; reflexivity).
  apply IH. intros q Hq. apply Hc. right. exact Hq.
Qed.

End WeightSums.

Lemma Qle_bool_compat a b : a == b -> Qle_bool a 0 = Qle_bool b 0.
Proof.
  intro H. destruct (Qle_bool a 0) eqn:Ea, (Qle_bool b 0) eqn:Eb; try reflexivity.
  - apply Qle_bool_iff in Ea. rewrite H in Ea. apply Qle_bool_iff in Ea. congruence.
  - apply Qle_bool_iff in Eb. rewrite <- H in Eb. apply Qle_bool_iff in Eb. congruence.
Qed.

Lemma positive_duration start end_time :
  start < end_time -> Qeq_bool (end_time - start) 0 = false.
Proof.
  intro H. apply not_true_iff_false. rewrite Qeq_bool_iff. intro H'. lra.
Qed.

Section SampleFacts.
Context {Frame : Type}.

Lemma samples_after_start (cap : Q -> option Frame) start end_time i p :
  0 < i -> In p (samples cap start end_time i) -> start <= fst p.
Proof.
  intros Hi Hin. apply In_nth_error in Hin. destruct Hin as [k Hk].
  destruct (gather_nth cap end_time i _ _ _ _ Hk) as [Ht _].
  rewrite Ht, ts_closed.
  assert (0 <= float_of_nat k * i).
  { apply Qmult_le_0_compat; [|lra]. unfold float_of_nat.
    change 0 with (inject_Z 0). rewrite <- Zle_Qle. lia. }
  lra.
Qed.

(** Two captures that agree past [start] gather the same samples past it. *)
Lemma gather_agree (cap1 cap2 : Q -> option Frame) start end_time i :
  0 < i -> (forall t, start < t -> cap1 t = cap2 t) ->
  forall fuel t, start < t ->
  gather fuel cap1 end_time i t = gather fuel cap2 end_time i t.
Proof.
  intros Hi Hc. induction fuel as [|fuel IH]; intros t Ht; simpl; [reflexivity|].
  rewrite (Hc t Ht). destruct (Qle_bool t end_time); [|reflexivity].
  destruct (cap2 t); [|reflexivity]. f_equal. apply IH. lra.
Qed.

End SampleFacts.

Section WeightedClaims.
Context {Frame Tensor : Type} (preprocess : Frame -> Tensor).

(** C4 (as amended): for a scene of positive length, the weighted score is
    exactly 100 when every obtained sample is Ad and one of them lies after
    [start]; it is 0 when every obtained sample lies at [start] (zero weight
    sum); it is 0 when every obtained sample is Content. *)
Theorem weighted_all_ad_all_content (cap : Q -> option Frame) (model : Tensor -> list Q)
    (start end_time interval : Q) :
  0 < interval -> start < end_time ->
  let smp := samples cap start end_time interval in
  ((forall p, In p smp -> is_ad_sample preprocess model p = true) ->
   (exists p, In p smp /\ start < fst p) ->
   exists q, process_video_segments_weigth preprocess cap model start end_time interval = Ok q
             /\ q == 100)
  /\ ((forall p, In p smp -> fst p == start) ->
      process_video_segments_weigth preprocess cap model start end_time interval = Ok 0)
  /\ ((forall p, In p smp -> is_ad_sample preprocess model p = false) ->
      exists q, process_video_segments_weigth preprocess cap model start end_time interval = Ok q
                /\ q == 0).
Proof.
  intros Hi Hse smp.
  rewrite process_video_segments_weigth_samples
    by (assumption || (left; apply positive_duration; exact Hse)).
  fold smp. unfold weighted_of. cbv zeta.
  set (Fw := fun (acc : Q) (p : Q * Frame) => acc + weight_of start end_time p).
  assert (Hw : forall p, In p smp -> 0 <= weight_of start end_time p).
  { intros p Hp. unfold weight_of. apply Qle_shift_div_l; [lra|].
    pose proof (samples_after_start cap start end_time interval p Hi Hp). lra. }
  split; [|split].
  - intros Had [p [Hp Hlt]].
    rewrite (fold_cond_all (is_ad_sample preprocess model) (weight_of start end_time))
      by exact Had.
    fold Fw.
    assert (HW : 0 < fold_left Fw smp 0).
    { apply fold_sum_gt; [exact Hw|]. exists p. split; [exact Hp|].
      unfold weight_of. apply Qlt_shift_div_l; lra. }
    rewrite (Qle_bool_false _ _ HW). simpl. eexists; split; [reflexivity|].
    field. intro H0. lra.
  - intros Hst.
    assert (HW : fold_left Fw smp 0 == 0).
    { apply fold_sum_zero. intros p Hp. unfold weight_of. rewrite (Hst p Hp).
      unfold Qdiv. ring. }
    assert (Hb : Qle_bool (fold_left Fw smp 0) 0 = true)
      by (apply Qle_bool_iff; rewrite HW; apply Qle_refl).
    rewrite Hb. reflexivity.
  - intros Hc.
    rewrite (fold_cond_none (is_ad_sample preprocess model) (weight_of start end_time))
      by exact Hc.
    destruct (negb _); eexists; (split; [reflexivity|]); [unfold Qdiv; ring | apply Qeq_refl].
Qed.

Lemma weighted_of_head_irrelevant (model : Tensor -> list Q) start end_time
    (f1 f2 : Frame) (R : list (Q * Frame)) :
  weighted_of preprocess model start end_time ((start, f1) :: R)
  == weighted_of preprocess model start end_time ((start, f2) :: R).
Proof.
  unfold weighted_of. cbv zeta.
  set (Fa := fun (acc : Q) (p : Q * Frame) =>
         if is_ad_sample preprocess model p then acc + weight_of start end_time p else acc).
  set (Fw := fun (acc : Q) (p : Q * Frame) => acc + weight_of start end_time p).
  cbn [fold_left].
  change (Fw 0 (start, f1)) with (Fw 0 (start, f2)).
  destruct (negb (Qle_bool (fold_left Fw R (Fw 0 (start, f2))) 0)); [|apply Qeq_refl].
  assert (Ha : fold_left Fa R (Fa 0 (start, f1)) == fold_left Fa R (Fa 0 (start, f2))).
  { apply fold_left_Qeq.
    - intros a b p Hab. unfold Fa. destruct (is_ad_sample preprocess model p);
        rewrite Hab; apply Qeq_refl.
    - unfold Fa, weight_of. simpl.
      destruct (is_ad_sample preprocess model (start, f1)),
               (is_ad_sample preprocess model (start, f2)); unfold Qdiv; ring. }
  rewrite Ha. apply Qeq_refl.
Qed.

(** C10: for a scene of positive length, the frame read at [start] has
    weight 0: two runs that differ only in the frame (hence the label)
    obtained at [start] return the same weighted score. *)
Theorem weighted_ignores_sample_at_start (cap1 cap2 : Q -> option Frame)
    (model : Tensor -> list Q) (start end_time interval : Q) :
  0 < interval -> start < end_time ->
  (forall t, ~ t == start -> cap1 t = cap2 t) ->
  (cap1 start = None <-> cap2 start = None) ->
  exists q1 q2,
    process_video_segments_weigth preprocess cap1 model start end_time interval = Ok q1
    /\ process_video_segments_weigth preprocess cap2 model start end_time interval = Ok q2
    /\ q1 == q2.
Proof.
  intros Hi Hse Hagree Hnone.
  rewrite !process_video_segments_weigth_samples
    by (assumption || (left; apply positive_duration; exact Hse)).
  do 2 eexists. split; [reflexivity|]. split; [reflexivity|].
  unfold samples, loop_fuel.
  generalize (Z.to_nat (Qceiling ((end_time - start) / interval))) as f. intro f.
  cbn [gather].
  assert (Hb : Qle_bool start end_time = true) by (apply Qle_bool_iff; lra).
  rewrite Hb.
  assert (Hpast : forall t, start < t -> cap1 t = cap2 t).
  { intros t Ht. apply Hagree. intro Heq. rewrite Heq in Ht. apply (Qlt_irrefl _ Ht). }
  destruct (cap1 start) as [f1|] eqn:E1, (cap2 start) as [f2|] eqn:E2.
  - rewrite (gather_agree cap1 cap2 start end_time interval Hi Hpast f (start + interval))
      by lra.
    apply weighted_of_head_irrelevant.
  - exfalso. destruct Hnone as [_ H]. specialize (H eq_refl). discriminate.
  - exfalso. destruct Hnone as [H _]. specialize (H eq_refl). discriminate.
  - apply Qeq_refl.
Qed.

End WeightedClaims.

(** ** Decision stage *)

Lemma skipn_nth_error {A} (l : list A) : forall i x,
  nth_error l i = Some x -> skipn i l = x :: skipn (S i) l.
Proof.
  induction l as [|y l IH]; intros [|i] x H; simpl in *; try discriminate.
  - injection H as ->. reflexivity.
  - apply IH. exact H.
Qed.

Lemma decide_go_spec (scenes : list (Q * Q)) (scores : list Q) :
  length scenes = length scores ->
  forall rest i acc,
  (i + length rest = length scores)%nat ->
  (forall k, nth_error rest k = nth_error scores (i + k)) ->
  decide_go true scenes scores i rest acc
  = Ok (acc ++ map snd (filter (fun p => Qle_bool (spec_effective_threshold scores (fst p))
                                                  (nth (fst p) scores 0))
                               (combine (seq i (length rest)) (skipn i scenes)))).
Proof.
  intros Hlen. induction rest as [|score rest IH]; intros i acc Hi Hn; simpl.
  - rewrite app_nil_r. reflexivity.
  - assert (Hs : nth i scores 0 = score).
    { specialize (Hn O). rewrite Nat.add_0_r in Hn. simpl in Hn.
      symmetry in Hn. apply nth_error_nth with (d := 0) in Hn. exact Hn. }
    destruct (nth_error scenes i) as [sc|] eqn:Hsc.
    2:{ exfalso. apply nth_error_None in Hsc. simpl in Hi. lia. }
    rewrite (skipn_nth_error scenes i sc Hsc). simpl.
    assert (Hnext : Nat.ltb i (length scores - 1) = Nat.ltb (S i) (length scores)).
    { destruct (Nat.ltb_spec i (length scores - 1)), (Nat.ltb_spec (S i) (length scores));
        reflexivity || lia. }
    assert (Hrest : forall k, nth_error rest k = nth_error scores (S i + k)).
    { intro k. specialize (Hn (S k)). simpl in Hn. rewrite Hn. f_equal. lia. }
    assert (Hi' : (S i + length rest = length scores)%nat) by (simpl in Hi; lia).
    unfold _is_advertisement, spec_effective_threshold.
    rewrite Hnext, Hs, Nat.add_1_r.
    destruct (Qle_bool _ score).
    + rewrite IH by assumption. rewrite <- app_assoc. reflexivity.
    + rewrite IH by assumption. reflexivity.
Qed.

(** C1: with [base_thresh = 12.5] and [boost = 10] and scores aligned with
    the scenes, the decision loop keeps exactly the scenes [i] with
    [s[i] >= effectiveThreshold(i)], where the threshold is [base_thresh]
    for an isolated scene and [base_thresh - boost] otherwise, in the
    original order. *)
Theorem decide_spec (scenes : list (Q * Q)) (scores : list Q) :
  length scenes = length scores ->
  decide true scenes scores = Ok (spec_decide scenes scores).
Proof.
  intro Hlen. unfold decide, spec_decide.
  rewrite (decide_go_spec scenes scores Hlen scores 0 [] eq_refl (fun k => eq_refl)).
  simpl. rewrite Hlen. reflexivity.
Qed.

Example decide_run_spreads : decide true [(0, 1); (1, 2); (2, 3)] [20; 13; 5]
  = Ok [(0, 1); (1, 2); (2, 3)].
Proof. reflexivity. Qed.

Example decide_end_to_end : decide true [(0, 1); (1, 2); (2, 3)] [50; 0; 0] = Ok [(0, 1)].
Proof. reflexivity. Qed.

Example decide_weak_neighbours : decide true [(0, 1); (1, 2); (2, 3)] [3; 20; 3]
  = Ok [(0, 1); (1, 2); (2, 3)].
Proof. reflexivity. Qed.

(** ** Scene score map *)

Lemma key_eqb_refl k : key_eqb k k = true.
Proof. unfold key_eqb. rewrite !(proj2 (Qeq_bool_iff _ _) (Qeq_refl _)). reflexivity. Qed.

Lemma Qeq_bool_comm x y : Qeq_bool x y = Qeq_bool y x.
Proof.
  destruct (Qeq_bool x y) eqn:E1, (Qeq_bool y x) eqn:E2; try reflexivity.
  - apply Qeq_bool_iff in E1. apply Qeq_sym in E1. apply Qeq_bool_iff in E1. congruence.
  - apply Qeq_bool_iff in E2. apply Qeq_sym in E2. apply Qeq_bool_iff in E2. congruence.
Qed.

Lemma key_eqb_comm a b : key_eqb a b = key_eqb b a.
Proof. unfold key_eqb. rewrite (Qeq_bool_comm (fst a)), (Qeq_bool_comm (snd a)). reflexivity. Qed.

Lemma dict_set_new (d : Dict) k v :
  (forall kv, In kv d -> key_eqb k (fst kv) = false) -> dict_set d k v = d ++ [(k, v)].
Proof.
  induction d as [|[k' v'] d IH]; intro H; simpl; [reflexivity|].
  pose proof (H (k', v') (or_introl eq_refl)) as E. simpl in E. rewrite E. f_equal.
  apply IH. intros kv Hkv. apply H. right. exact Hkv.
Qed.

Lemma dict_get_first (score : Q * Q -> Q) (scenes : list (Q * Q)) :
  ForallOrdPairs (fun a b => key_eqb a b = false) scenes ->
  forall sc, In sc scenes -> dict_get (map (fun s => (s, score s)) scenes) sc = Ok (score sc).
Proof.
  induction scenes as [|s rest IH]; intros Hd sc Hin; [destruct Hin|].
  inversion Hd as [|? ? Hhead Htail]; subst. simpl.
  destruct Hin as [<-|Hin].
  - rewrite key_eqb_refl. reflexivity.
  - assert (E : key_eqb sc s = false).
    { rewrite key_eqb_comm. rewrite Forall_forall in Hhead. apply Hhead. exact Hin. }
    rewrite E. apply IH; assumption.
Qed.

Lemma lookup_scores_map (d : Dict) (score : Q * Q -> Q) (scenes : list (Q * Q)) :
  (forall sc, In sc scenes -> dict_get d sc = Ok (score sc)) ->
  lookup_scores d scenes = Ok (map score scenes).
Proof.
  induction scenes as [|sc rest IH]; intro H; simpl; [reflexivity|].
  rewrite (H sc) by (left; reflexivity). simpl.
  rewrite IH by (intros s Hs; apply H; right; exact Hs). reflexivity.
Qed.

Section SceneMap.
Context {Frame Tensor : Type} (preprocess : Frame -> Tensor).

Definition scene_score (cap : Q -> option Frame) (model : Tensor -> list Q) (sc : Q * Q) : Q :=
  unweighted_of preprocess model (samples cap (fst sc) (snd sc) (1 # 2)).

Lemma submit_running (scenes : list (Q * Q)) :
  submit true scenes = map (fun s => [s]) scenes.
Proof. induction scenes as [|s rest IH]; simpl; [reflexivity|]. now rewrite IH. Qed.

Lemma task_result (cap : Q -> option Frame) (model : Tensor -> list Q) sc :
  detect_ad_scenes_from_segments_and_get_all_results preprocess cap model [sc]
  = Ok [(sc, scene_score cap model sc)].
Proof.
  destruct sc as [s e].
  unfold detect_ad_scenes_from_segments_and_get_all_results. simpl.
  rewrite process_video_segments_after_samples by reflexivity. reflexivity.
Qed.

Lemma collect_running (cap : Q -> option Frame) (model : Tensor -> list Q) :
  forall scenes preds,
  ForallOrdPairs (fun a b => key_eqb a b = false) scenes ->
  (forall sc kv, In sc scenes -> In kv preds -> key_eqb sc (fst kv) = false) ->
  collect preprocess true cap model (map (fun s => [s]) scenes) preds
  = Ok (preds ++ map (fun s => (s, scene_score cap model s)) scenes).
Proof.
  induction scenes as [|sc rest IH]; intros preds Hd Hk; simpl.
  - rewrite app_nil_r. reflexivity.
  - inversion Hd as [|? ? Hhead Htail]; subst.
    rewrite task_result. simpl. unfold dict_update. simpl.
    rewrite dict_set_new by (intros kv Hkv; apply Hk; [left; reflexivity | exact Hkv]).
    rewrite IH; [rewrite <- app_assoc; reflexivity | exact Htail |].
    intros s kv Hs Hkv. apply in_app_or in Hkv. destruct Hkv as [Hkv|[<-|[]]].
    + apply Hk; [right; exact Hs | exact Hkv].
    + simpl. rewrite key_eqb_comm. rewrite Forall_forall in Hhead. apply Hhead. exact Hs.
Qed.

(** C6: with the worker running and pairwise distinct scene ranges, the
    merged score map has exactly one entry per scene range, keyed by that
    range, in scene order; looking the ranges up gives one score per scene
    in scene order, and these are the scores the decision rule receives. *)
Theorem scene_score_map (cap : Q -> option Frame) (model : Tensor -> list Q)
    (scenes : list (Q * Q)) :
  ForallOrdPairs (fun a b => key_eqb a b = false) scenes ->
  exists score : Q * Q -> Q,
    (forall sc, In sc scenes ->
       process_video_segments_after_ preprocess cap model (fst sc) (snd sc) (1 # 2)
       = Ok (score sc))
    /\ parallel_scene_scores preprocess true cap model scenes
       = Ok (map (fun sc => (sc, score sc)) scenes)
    /\ map fst (map (fun sc => (sc, score sc)) scenes) = scenes
    /\ lookup_scores (map (fun sc => (sc, score sc)) scenes) scenes = Ok (map score scenes)
    /\ (scenes <> [] ->
        analyze_video preprocess true cap model scenes
        = decide true scenes (map score scenes)).
Proof.
  intro Hd. exists (scene_score cap model).
  assert (Hmap : parallel_scene_scores preprocess true cap model scenes
                 = Ok (map (fun sc => (sc, scene_score cap model sc)) scenes)).
  { unfold parallel_scene_scores. rewrite submit_running.
    rewrite collect_running; [reflexivity | exact Hd | intros sc kv _ []]. }
  assert (Hlook : lookup_scores (map (fun sc => (sc, scene_score cap model sc)) scenes) scenes
                  = Ok (map (scene_score cap model) scenes)).
  { apply lookup_scores_map. apply dict_get_first. exact Hd. }
  split; [|split; [exact Hmap|split; [|split; [exact Hlook|]]]].
  - intros sc _. apply process_video_segments_after_samples. reflexivity.
  - rewrite map_map. apply map_id.
  - intro Hne. unfold analyze_video.
    destruct scenes as [|sc rest]; [contradiction|].
    rewrite Hmap. simpl res_bind. simpl in Hlook. rewrite Hlook. reflexivity.
Qed.

End SceneMap.

(** ** Concrete runs *)

(** C2: on a zero-length scene whose first frame can be read, the weighted
    scorer divides by [segment_duration = 0] and raises [ZeroDivisionError]
    instead of returning [0.0]. *)
Theorem weighted_zero_length_raises :
  samples cap_demo 2 2 (1 # 2) = [(2, 4%nat)]
  /\ process_video_segments_weigth id_frame cap_demo model_demo 2 2 (1 # 2)
     = Raise ZeroDivisionError.
Proof. split; vm_compute; reflexivity. Qed.

(** C5: on a zero-length scene whose frame at [start] can be read, the
    unweighted scorer samples that frame and returns a score, while the
    weighted scorer raises [ZeroDivisionError] at the same timestamp, before
    classifying the frame (the unguarded division of C2). *)
Theorem zero_length_scene_weighted_raises :
  samples cap_demo 1 1 (1 # 2) = [(1, 2%nat)]
  /\ process_video_segments id_frame cap_demo model_demo 1 1 (1 # 2) = Ok 100
  /\ process_video_segments_weigth id_frame cap_demo model_demo 1 1 (1 # 2)
     = Raise ZeroDivisionError.
Proof. split; [|split]; vm_compute; reflexivity. Qed.

(** C8: a model name that is neither preloaded nor in [AVAILABLE_MODELS]
    makes [load_model] raise [AttributeError] ([None.replace]) before the
    branch that reports the missing model and returns [None]. *)
Theorem load_model_unknown_raises :
  assoc_get AVAILABLE_MODELS "ResNet" = None
  /\ load_model fs_demo [] "ResNet" = (Raise AttributeError, []).
Proof. split; reflexivity. Qed.

Lemma load_model_known_loads :
  load_model fs_demo [] "Swin"
  = (Ok (Some {| arch := "swin_tiny_patch4_window7_224";
                 weights := "../models/ad_classifier_swin.pth" |}),
     [("Swin", {| arch := "swin_tiny_patch4_window7_224";
                  weights := "../models/ad_classifier_swin.pth" |})]).
Proof. reflexivity. Qed.

(** C4: a scene of positive length whose only obtained sample is an Ad
    frame at [start] has weight sum 0 and scores 0.0, not 100.0. *)
Lemma weighted_all_ad_counterexample :
  samples cap_first_only 0 1 (1 # 2) = [(0, 0%nat)]
  /\ is_ad_sample id_frame model_demo (0, 0%nat) = true
  /\ process_video_segments_weigth id_frame cap_first_only model_demo 0 1 (1 # 2) = Ok 0
  /\ ~ (0 == 100).
Proof.
  split; [vm_compute; reflexivity|].
  split; [reflexivity|].
  split; [vm_compute; reflexivity|].
  intro H. discriminate H.
Qed.

(** ** Witnesses *)

Lemma decide_spec_witness :
  length [(0, 1); (1, 2); (2, 3)] = length [20; 13; 5]
  /\ decide true [(0, 1); (1, 2); (2, 3)] [20; 13; 5]
     = Ok (spec_decide [(0, 1); (1, 2); (2, 3)] [20; 13; 5]).
Proof.
  split; [reflexivity|].
  apply decide_spec. reflexivity.
Defined.

Lemma unweighted_score_formula_witness :
  0 < 1 # 2
  /\ (length (samples cap_demo 0 2 (1 # 2)) = 0%nat ->
      process_video_segments id_frame cap_demo model_demo 0 2 (1 # 2) = Ok 0
      /\ process_video_segments_after_ id_frame cap_demo model_demo 0 2 (1 # 2) = Ok 0).
Proof.
  split; [reflexivity|].
  exact (proj1 (unweighted_score_formula id_frame cap_demo model_demo 0 2 (1 # 2) eq_refl)).
Defined.

Lemma weighted_all_ad_all_content_witness :
  0 < 1 # 2 /\ 0 < 1
  /\ ((forall p, In p (samples cap_first_only 0 1 (1 # 2)) -> fst p == 0) ->
      process_video_segments_weigth id_frame cap_first_only model_demo 0 1 (1 # 2) = Ok 0).
Proof.
  split; [reflexivity|]. split; [reflexivity|].
  exact (proj1 (proj2 (weighted_all_ad_all_content id_frame cap_first_only model_demo
                         0 1 (1 # 2) eq_refl eq_refl))).
Defined.

Lemma scene_score_map_witness :
  ForallOrdPairs (fun a b => key_eqb a b = false) [(0, 1); (1, 2)]
  /\ exists score : Q * Q -> Q,
       parallel_scene_scores id_frame true cap_demo model_demo [(0, 1); (1, 2)]
       = Ok (map (fun sc => (sc, score sc)) [(0, 1); (1, 2)]).
Proof.
  assert (H : ForallOrdPairs (fun a b => key_eqb a b = false) [(0, 1); (1, 2)])
    by (repeat constructor).
  split; [exact H|].
  destruct (scene_score_map id_frame cap_demo model_demo [(0, 1); (1, 2)] H)
    as [score [_ [Hm _]]].
  exists score. exact Hm.
Defined.

Lemma classify_frame_argmax_witness :
  model_demo (id_frame 0%nat) = [1; 0]
  /\ classify_frame id_frame 0%nat model_demo = 0%nat.
Proof.
  split; [reflexivity|].
  apply (proj2 (proj1 (classify_frame_argmax id_frame 0%nat model_demo 1 0 eq_refl))).
  lra.
Defined.

Lemma weighted_ignores_sample_at_start_witness :
  0 < 1 # 2 /\ 0 < 2
  /\ (forall t, ~ t == 0 -> cap_ad_at_0 t = cap_content_at_0 t)
  /\ (cap_ad_at_0 0 = None <-> cap_content_at_0 0 = None)
  /\ exists q1 q2,
       process_video_segments_weigth id_frame cap_ad_at_0 model_demo 0 2 (1 # 2) = Ok q1
       /\ process_video_segments_weigth id_frame cap_content_at_0 model_demo 0 2 (1 # 2) = Ok q2
       /\ q1 == q2.
Proof.
  assert (Ht : forall t, ~ t == 0 -> cap_ad_at_0 t = cap_content_at_0 t).
  { intros t Hne. unfold cap_ad_at_0, cap_content_at_0.
    destruct (Qeq_bool t 0) eqn:E; [|reflexivity].
    apply Qeq_bool_iff in E. contradiction. }
  assert (Hn : cap_ad_at_0 0 = None <-> cap_content_at_0 0 = None)
    by (split; intro H; discriminate H).
  split; [reflexivity|]. split; [reflexivity|]. split; [exact Ht|]. split; [exact Hn|].
  exact (weighted_ignores_sample_at_start id_frame cap_ad_at_0 cap_content_at_0 model_demo
           0 2 (1 # 2) eq_refl eq_refl Ht Hn).
Defined.

(** * Further properties of the code *)

(** ** Score ranges *)

Lemma filter_length_le' {A} (f : A -> bool) (l : list A) :
  (length (filter f l) <= length l)%nat.
Proof. induction l as [|x l IH]; simpl; [lia|]. destruct (f x); simpl; lia. Qed.

Lemma percent_bounds (a b : Q) : 0 <= a -> a <= b -> 0 < b -> 0 <= a / b * 100 <= 100.
Proof.
  intros Ha Hab Hb. split.
  - apply Qmult_le_0_compat; [|lra]. apply Qle_shift_div_l; [exact Hb | lra].
  - assert (a / b <= 1) by (apply Qle_shift_div_r; [exact Hb | lra]). lra.
Qed.

Section Ranges.
Context {Frame Tensor : Type} (preprocess : Frame -> Tensor).

Lemma unweighted_of_bounds (model : Tensor -> list Q) (smp : list (Q * Frame)) :
  0 <= unweighted_of preprocess model smp <= 100.
Proof.
  unfold unweighted_of.
  destruct (Nat.ltb_spec 0 (length smp)) as [H|H]; [|split; lra].
  apply percent_bounds; unfold float_of_nat.
  - change 0 with (inject_Z 0). rewrite <- Zle_Qle. lia.
  - rewrite <- Zle_Qle. pose proof (filter_length_le' (is_ad_sample preprocess model) smp). lia.
  - change 0 with (inject_Z 0). rewrite <- Zlt_Qlt. lia.
Qed.

Lemma fold_cond_le {A} (c : A -> bool) (g : A -> Q) (l : list A) :
  (forall p, In p l -> 0 <= g p) ->
  forall a b, a <= b ->
  fold_left (fun acc p => if c p then acc + g p else acc) l a
  <= fold_left (fun acc p => acc + g p) l b.
Proof.
  induction l as [|p l IH]; intros Hg a b Hab; simpl; [exact Hab|].
  assert (0 <= g p) by (apply Hg; left; reflexivity).
  apply IH; [intros q Hq; apply Hg; right; exact Hq|].
  destruct (c p); lra.
Qed.

Lemma fold_cond_ge {A} (c : A -> bool) (g : A -> Q) (l : list A) :
  (forall p, In p l -> 0 <= g p) ->
  forall a, a <= fold_left (fun acc p => if c p then acc + g p else acc) l a.
Proof.
  induction l as [|p l IH]; intros Hg a; simpl; [apply Qle_refl|].
  assert (0 <= g p) by (apply Hg; left; reflexivity).
  destruct (c p).
  - apply Qle_trans with (a + g p); [lra|]. apply IH. intros q Hq. apply Hg. right. exact Hq.
  - apply IH. intros q Hq. apply Hg. right. exact Hq.
Qed.

Lemma weighted_of_bounds (cap : Q -> option Frame) (model : Tensor -> list Q) start end_time i :
  0 < i -> start < end_time ->
  0 <= weighted_of preprocess model start end_time (samples cap start end_time i) <= 100.
Proof.
  intros Hi Hse. unfold weighted_of.
  set (smp := samples cap start end_time i).
  assert (Hw : forall p, In p smp -> 0 <= weight_of start end_time p).
  { intros p Hp. pose proof (samples_after_start cap start end_time i p Hi Hp).
    unfold weight_of. apply Qle_shift_div_l; lra. }
  destruct (Qle_bool _ 0) eqn:E; simpl; [split; lra|].
  apply percent_bounds.
  - apply fold_cond_ge. exact Hw.
  - apply fold_cond_le; [exact Hw | apply Qle_refl].
  - apply Qnot_le_lt. intro H. apply Qle_bool_iff in H. congruence.
Qed.





Lemma pvsw_loop_range (cap : Q -> option Frame) (model : Tensor -> list Q) start end_time i :
  0 <= i -> start < end_time ->
  forall fuel t wv w, start <= t -> 0 <= wv <= w ->
  match pvsw_loop preprocess fuel cap model start end_time i (end_time - start) t wv w with
  | Ok (wv', w') => 0 <= wv' <= w'
  | Raise _ => False
  | OutOfFuel => True
  end.
Proof.
  intros Hi Hse. induction fuel as [|fuel IH]; intros t wv w Ht Hw; simpl.
  - destruct (Qle_bool t end_time); first [exact I | exact Hw].
  - destruct (Qle_bool t end_time); [|exact Hw].
    destruct (cap t) as [frame|]; [|exact Hw].
    unfold py_div. destruct (Qeq_bool (end_time - start) 0) eqn:Ez.
    { apply Qeq_bool_eq in Ez. lra. }
    simpl. assert (Hwt : 0 <= (t - start) / (end_time - start))
      by (apply Qle_shift_div_l; lra).
    apply IH; [lra|]. destruct (Nat.eqb _ 0); lra.
Qed.

(** X2: on a scene of positive length, with a non-negative sampling
    interval, the weighted scorer never raises, and any score it returns is
    a percentage between 0 and 100 ([OutOfFuel] stands for a loop that
    does not end). *)
Theorem weighted_score_range (cap : Q -> option Frame) (model : Tensor -> list Q)
    start end_time i :
  0 <= i -> start < end_time ->
  match process_video_segments_weigth preprocess cap model start end_time i with
  | Ok r => 0 <= r <= 100
  | Raise _ => False
  | OutOfFuel => True
  end.
Proof.
  intros Hi Hse. unfold process_video_segments_weigth.
  assert (H0 : 0 <= 0 <= 0) by lra.
  pose proof (pvsw_loop_range cap model start end_time i Hi Hse (loop_fuel start end_time i)
                start 0 0 (Qle_refl start) H0) as H.
  destruct (pvsw_loop preprocess (loop_fuel start end_time i) cap model start end_time i
              (end_time - start) start 0 0) as [[wv w]|e|]; simpl; [|exact H | exact I].
  destruct (Qle_bool w 0) eqn:E; simpl; [split; lra|].
  apply percent_bounds; [lra | lra|].
  apply Qnot_le_lt. intro Hc. apply Qle_bool_iff in Hc. congruence.
Qed.

End Ranges.

(** ** Scene-level callers *)

Section CallerProofs.
Context {Frame Tensor : Type} (preprocess : Frame -> Tensor).

Lemma detect_ad_scenes_go_filter (cap : Q -> option Frame) (model : Tensor -> list Q) threshold :
  forall scenes acc,
  detect_ad_scenes_go preprocess cap model threshold scenes acc
  = Ok (acc ++ filter (fun sc => negb (Qle_bool (scene_score preprocess cap model sc) threshold))
                      scenes).
Proof.
  induction scenes as [|[s e] rest IH]; intro acc; simpl.
  - rewrite app_nil_r. reflexivity.
  - rewrite process_video_segments_after_samples by reflexivity. simpl res_bind.
    rewrite IH. unfold scene_score. simpl fst. simpl snd.
    destruct (negb _); [rewrite <- app_assoc|]; reflexivity.
Qed.

(** X3: [detect_ad_scenes_from_segments] never raises and keeps, in scene
    order, exactly the scenes whose unweighted score (0.5 s sampling) is
    strictly above [threshold]. *)
Theorem detect_ad_scenes_from_segments_filter (cap : Q -> option Frame)
    (model : Tensor -> list Q) (scenes : list (Q * Q)) threshold :
  detect_ad_scenes_from_segments preprocess cap model scenes threshold
  = Ok (filter (fun sc => negb (Qle_bool (scene_score preprocess cap model sc) threshold))
               scenes).
Proof. apply detect_ad_scenes_go_filter. Qed.

(** X4: a threshold of 100 or more keeps no scene; a negative threshold
    keeps every scene. *)
Theorem detect_ad_scenes_threshold_extremes (cap : Q -> option Frame)
    (model : Tensor -> list Q) (scenes : list (Q * Q)) threshold :
  (100 <= threshold ->
   detect_ad_scenes_from_segments preprocess cap model scenes threshold = Ok [])
  /\ (threshold < 0 ->
   detect_ad_scenes_from_segments preprocess cap model scenes threshold = Ok scenes).
Proof.
  unfold detect_ad_scenes_from_segments. split; intro Ht; rewrite detect_ad_scenes_go_filter;
    simpl; f_equal; induction scenes as [|sc rest IH]; simpl; try reflexivity;
    pose proof (unweighted_of_bounds preprocess model
                  (samples cap (fst sc) (snd sc) (1 # 2))) as [H0 H100];
    unfold scene_score.
  - replace (Qle_bool _ threshold) with true; [exact IH|].
    symmetry. apply Qle_bool_iff. lra.
  - replace (Qle_bool _ threshold) with false; [simpl; f_equal; exact IH|].
    symmetry. apply Qle_bool_false. lra.
Qed.

Lemma to_logs_go_spec (cap : Q -> option Frame) (model : Tensor -> list Q) name :
  forall scenes d log,
  match to_logs_go preprocess cap model name scenes d log with
  | (r, log') =>
      exists rows, log' = log ++ rows
      /\ (forall k row, nth_error rows k = Some row ->
            row_name row = name
            /\ nth_error scenes k = Some (row_start row, row_end row)
            /\ process_video_segments_weigth preprocess cap model
                 (row_start row) (row_end row) (1 # 2) = Ok (row_result row))
      /\ match r with
         | Ok d' => length rows = length scenes
                    /\ d' = fold_left (fun acc row =>
                              dict_set acc (row_start row, row_end row) (row_result row)) rows d
         | Raise e => exists sc, nth_error scenes (length rows) = Some sc
                      /\ process_video_segments_weigth preprocess cap model
                           (fst sc) (snd sc) (1 # 2) = Raise e
         | OutOfFuel => exists sc, nth_error scenes (length rows) = Some sc
                      /\ process_video_segments_weigth preprocess cap model
                           (fst sc) (snd sc) (1 # 2) = OutOfFuel
         end
  end.
Proof.
  induction scenes as [|[s e] rest IH]; intros d log; simpl.
  - exists []. rewrite app_nil_r. split; [reflexivity|].
    split; [intros [|k] row H; discriminate | split; reflexivity].
  - destruct (process_video_segments_weigth preprocess cap model s e (1 # 2)) as [result|ex|] eqn:Hp.
    + set (row := {| row_name := name; row_start := s; row_end := e; row_result := result |}).
      specialize (IH (dict_set d (s, e) result) (log ++ [row])).
      destruct (to_logs_go preprocess cap model name rest _ _) as [r log'].
      destruct IH as [rows [Hl [Hrows Hr]]].
      exists (row :: rows). split; [rewrite Hl, <- app_assoc; reflexivity|].
      split.
      * intros [|k] rw Hk; simpl in Hk.
        -- injection Hk as <-. simpl. split; [reflexivity|]. split; [reflexivity | exact Hp].
        -- exact (Hrows k rw Hk).
      * destruct r as [d'|ex|]; simpl; [|exact Hr|exact Hr].
        destruct Hr as [Hlen Hd]. split; [rewrite Hlen; reflexivity | exact Hd].
    + exists []. rewrite app_nil_r. split; [reflexivity|].
      split; [intros [|k] row H; discriminate|].
      exists (s, e). split; [reflexivity | exact Hp].
    + exists []. rewrite app_nil_r. split; [reflexivity|].
      split; [intros [|k] row H; discriminate|].
      exists (s, e). split; [reflexivity | exact Hp].
Qed.

(** X5: [detect_ad_scenes_from_segments_and_get_all_results_to_logs] appends
    one log row per scored scene, in scene order, each holding [name], the
    range and its weighted score.  When every scene is scored, the returned
    dict is built from exactly these rows; when a scene raises, the rows of
    the scenes before it stay in the log and the exception is the one that
    scene's scorer raised. *)
Theorem to_logs_rows (cap : Q -> option Frame) (model : Tensor -> list Q)
    (scenes : list (Q * Q)) name log :
  match detect_ad_scenes_from_segments_and_get_all_results_to_logs preprocess cap model
          scenes name log with
  | (r, log') =>
      exists rows, log' = log ++ rows
      /\ (forall k row, nth_error rows k = Some row ->
            row_name row = name
            /\ nth_error scenes k = Some (row_start row, row_end row)
            /\ process_video_segments_weigth preprocess cap model
                 (row_start row) (row_end row) (1 # 2) = Ok (row_result row))
      /\ match r with
         | Ok d' => length rows = length scenes
                    /\ d' = fold_left (fun acc row =>
                              dict_set acc (row_start row, row_end row) (row_result row)) rows []
         | Raise e => exists sc, nth_error scenes (length rows) = Some sc
                      /\ process_video_segments_weigth preprocess cap model
                           (fst sc) (snd sc) (1 # 2) = Raise e
         | OutOfFuel => exists sc, nth_error scenes (length rows) = Some sc
                      /\ process_video_segments_weigth preprocess cap model
                           (fst sc) (snd sc) (1 # 2) = OutOfFuel
         end
  end.
Proof. apply to_logs_go_spec. Qed.

End CallerProofs.

(** ** The decision stage and the whole analysis *)

Lemma Qeq_bool_trans x y z : Qeq_bool x y = true -> Qeq_bool y z = true -> Qeq_bool x z = true.
Proof.
  rewrite !Qeq_bool_iff. intros H1 H2. rewrite H1. exact H2.
Qed.

Lemma key_eqb_trans a b c : key_eqb a b = true -> key_eqb b c = true -> key_eqb a c = true.
Proof.
  unfold key_eqb. rewrite !andb_true_iff. intros [H1 H2] [H3 H4].
  split; eapply Qeq_bool_trans; eassumption.
Qed.

Lemma dict_get_set_present (d : Dict) k v k' :
  key_eqb k' k = true \/ (exists w, dict_get d k' = Ok w) ->
  exists w, dict_get (dict_set d k v) k' = Ok w.
Proof.
  induction d as [|[k0 v0] d IH]; intro H; simpl.
  - destruct H as [H|[w Hw]]; [rewrite H; eexists; reflexivity | discriminate].
  - destruct (key_eqb k k0) eqn:Ek; simpl.
    + destruct (key_eqb k' k0) eqn:E'; [eexists; reflexivity|].
      destruct H as [H|[w Hw]].
      * rewrite (key_eqb_trans _ _ _ H Ek) in E'. discriminate.
      * simpl in Hw. rewrite E' in Hw. exists w. exact Hw.
    + destruct (key_eqb k' k0) eqn:E'; [eexists; reflexivity|].
      apply IH. destruct H as [H|[w Hw]]; [left; exact H|].
      right. simpl in Hw. rewrite E' in Hw. exists w. exact Hw.
Qed.

Lemma lookup_scores_present (d : Dict) (scenes : list (Q * Q)) :
  (forall sc, In sc scenes -> exists w, dict_get d sc = Ok w) ->
  exists l, lookup_scores d scenes = Ok l /\ length l = length scenes.
Proof.
  induction scenes as [|sc rest IH]; intro H; simpl; [exists []; split; reflexivity|].
  destruct (H sc (or_introl eq_refl)) as [w Hw]. rewrite Hw. simpl.
  destruct IH as [l [Hl Hlen]]; [intros s Hs; apply H; right; exact Hs|].
  rewrite Hl. exists (w :: l). split; [reflexivity | simpl; rewrite Hlen; reflexivity].
Qed.

Lemma in_filter_combine_seq {A} (P : nat * A -> bool) (l : list A) :
  forall k x,
  In x (filter P (combine (seq k (length l)) l))
  <-> exists i, nth_error l i = Some (snd x) /\ fst x = (k + i)%nat /\ P x = true.
Proof.
  induction l as [|y l IH]; intros k x; simpl.
  - split; [intros []|]. intros [i [Hi _]]. destruct i; discriminate.
  - destruct (P (k, y)) eqn:Hp; simpl; rewrite ?IH; split.
    + intros [<-|[i [Hi [Hf HP]]]].
      * exists O. split; [reflexivity|]. split; [simpl; lia | exact Hp].
      * exists (S i). split; [exact Hi|]. split; [lia | exact HP].
    + intros [[|i] [Hi [Hf HP]]]; simpl in Hi.
      * left. injection Hi as Hi. destruct x as [a b]. simpl in Hi, Hf. subst b. f_equal. lia.
      * right. exists i. split; [exact Hi|]. split; [lia | exact HP].
    + intros [i [Hi [Hf HP]]]. exists (S i). split; [exact Hi|]. split; [lia | exact HP].
    + intros [[|i] [Hi [Hf HP]]]; simpl in Hi.
      * injection Hi as Hi. destruct x as [a b]. simpl in Hi, Hf, HP. subst b.
        assert (a = k) by lia. subst a. congruence.
      * exists i. split; [exact Hi|]. split; [lia | exact HP].
Qed.

Lemma decide_true_filter (scenes : list (Q * Q)) (scores : list Q) :
  length scenes = length scores ->
  decide true scenes scores
  = Ok (map snd (filter (fun p => Qle_bool (spec_effective_threshold scores (fst p))
                                           (nth (fst p) scores 0))
                        (combine (seq 0 (length scenes)) scenes))).
Proof.
  intro Hlen. unfold decide.
  rewrite (decide_go_spec scenes scores Hlen scores 0 [] eq_refl (fun k => eq_refl)).
  simpl. rewrite Hlen. reflexivity.
Qed.

(** X6: when the scores are aligned with the scenes, a scene scoring at
    least [base_thresh = 12.5] is always reported, whatever its
    neighbours score. *)
Theorem decide_keeps_strong (scenes : list (Q * Q)) (scores : list Q) i sc :
  length scenes = length scores ->
  nth_error scenes i = Some sc ->
  25 # 2 <= nth i scores 0 ->
  exists r, decide true scenes scores = Ok r /\ In sc r.
Proof.
  intros Hlen Hi Hs. rewrite decide_true_filter by exact Hlen.
  eexists. split; [reflexivity|].
  apply in_map_iff. exists (i, sc). split; [reflexivity|].
  apply in_filter_combine_seq. exists i. split; [exact Hi|]. split; [reflexivity|].
  simpl. apply Qle_bool_iff. unfold spec_effective_threshold, base_thresh, boost.
  destruct (_ && _); simpl; lra.
Qed.

(** X7: every reported scene scores at least [base_thresh = 12.5], or it
    scores at least [base_thresh - boost = 2.5] and a neighbouring scene
    scores at least 12.5. *)
Theorem decide_kept_reason (scenes : list (Q * Q)) (scores : list Q) r sc :
  length scenes = length scores ->
  decide true scenes scores = Ok r ->
  In sc r ->
  exists i, nth_error scenes i = Some sc
    /\ (25 # 2 <= nth i scores 0
        \/ (5 # 2 <= nth i scores 0
            /\ (((0 < i)%nat /\ 25 # 2 <= nth (i - 1) scores 0)
                \/ ((S i < length scores)%nat /\ 25 # 2 <= nth (S i) scores 0)))).
Proof.
  intros Hlen Hd Hin. rewrite decide_true_filter in Hd by exact Hlen.
  injection Hd as <-. apply in_map_iff in Hin. destruct Hin as [[j sc'] [Hsc Hj]].
  simpl in Hsc. subst sc'.
  apply in_filter_combine_seq in Hj. destruct Hj as [i [Hi [Hf HP]]].
  simpl in Hi, Hf, HP. subst j. exists i. split; [exact Hi|].
  apply Qle_bool_iff in HP. unfold spec_effective_threshold in HP.
  destruct (Nat.ltb 0 i && Qle_bool base_thresh (nth (i - 1) scores 0)) eqn:Hp;
  destruct (Nat.ltb (S i) (length scores) && Qle_bool base_thresh (nth (S i) scores 0)) eqn:Hn;
  simpl in HP; unfold base_thresh, boost in *.
  - right. split; [lra|]. left. apply andb_true_iff in Hp. destruct Hp as [H1 H2].
    apply Nat.ltb_lt in H1. apply Qle_bool_iff in H2. split; assumption.
  - right. split; [lra|]. left. apply andb_true_iff in Hp. destruct Hp as [H1 H2].
    apply Nat.ltb_lt in H1. apply Qle_bool_iff in H2. split; assumption.
  - right. split; [lra|]. right. apply andb_true_iff in Hn. destruct Hn as [H1 H2].
    apply Nat.ltb_lt in H1. apply Qle_bool_iff in H2. split; assumption.
  - left. exact HP.
Qed.

Section AnalysisProofs.
Context {Frame Tensor : Type} (preprocess : Frame -> Tensor).

Lemma get_all_results_ok (cap : Q -> option Frame) (model : Tensor -> list Q) :
  forall scenes d, exists d', get_all_results_go preprocess cap model scenes d = Ok d'.
Proof.
  induction scenes as [|[s e] rest IH]; intro d; simpl; [eexists; reflexivity|].
  rewrite process_video_segments_after_samples by reflexivity. simpl. apply IH.
Qed.

Lemma collect_reads_ok (flag : nat -> bool) (cap : Q -> option Frame) (model : Tensor -> list Q) :
  forall futures n preds,
  exists d n', collect_reads preprocess flag n cap model futures preds = Ok (d, n').
Proof.
  induction futures as [|fut rest IH]; intros n preds; cbn [collect_reads].
  - do 2 eexists. reflexivity.
  - destruct (flag n); cbn [negb]; [|do 2 eexists; reflexivity].
    unfold detect_ad_scenes_from_segments_and_get_all_results.
    destruct (get_all_results_ok cap model fut []) as [d Hd]. rewrite Hd. cbn [res_bind]. apply IH.
Qed.

Lemma dict_get_cases (d : Dict) k :
  (exists w, dict_get d k = Ok w) \/ dict_get d k = Raise KeyError.
Proof.
  induction d as [|[k' v] d IH]; simpl; [right; reflexivity|].
  destruct (key_eqb k k'); [left; eexists; reflexivity | exact IH].
Qed.

Lemma lookup_scores_cases (d : Dict) (scenes : list (Q * Q)) :
  (exists l, lookup_scores d scenes = Ok l /\ length l = length scenes)
  \/ lookup_scores d scenes = Raise KeyError.
Proof.
  induction scenes as [|sc rest IH]; cbn [lookup_scores]; [left; exists []; split; reflexivity|].
  destruct (dict_get_cases d sc) as [[w Hw]|Hw]; rewrite Hw; cbn [res_bind]; [|right; reflexivity].
  destruct IH as [[l [Hl Hlen]]|Hl]; rewrite Hl; cbn [res_bind].
  - left. exists (w :: l). split; [reflexivity | simpl; congruence].
  - right. reflexivity.
Qed.

Lemma decide_reads_go_sub (flag : nat -> bool) (scenes : list (Q * Q)) (scores : list Q) :
  forall rest i n acc, (i + length rest = length scenes)%nat ->
  exists r, decide_reads_go flag n scenes scores i rest acc = Ok r
    /\ forall sc, In sc r -> In sc acc \/ In sc scenes.
Proof.
  induction rest as [|x rest IH]; intros i n acc Hl; cbn [decide_reads_go].
  - exists acc. split; [reflexivity | intros sc H; left; exact H].
  - destruct (flag n); cbn [negb].
    2:{ exists acc. split; [reflexivity | intros sc H; left; exact H]. }
    simpl length in Hl.
    destruct (_is_advertisement _ _ _ _).
    + destruct (nth_error scenes i) as [sc0|] eqn:E.
      * destruct (IH (S i) (S n) (acc ++ [sc0])) as [r [Hr Hin]]; [lia|].
        exists r. split; [exact Hr|]. intros sc Hsc.
        destruct (Hin sc Hsc) as [H|H]; [|right; exact H].
        apply in_app_or in H. destruct H as [H|[<-|[]]]; [left; exact H|].
        right. eapply nth_error_In. exact E.
      * exfalso. apply nth_error_None in E. lia.
    + apply IH. lia.
Qed.

Lemma submit_reads_all (flag : nat -> bool) : (forall n, flag n = true) ->
  forall scenes n, submit_reads flag n scenes = (map (fun s => [s]) scenes, (n + length scenes)%nat).
Proof.
  intro Hf. induction scenes as [|sc rest IH]; intro n; cbn [submit_reads].
  - simpl. f_equal. lia.
  - rewrite Hf. cbn [negb]. rewrite IH. simpl. f_equal. lia.
Qed.

Lemma collect_reads_all (flag : nat -> bool) (cap : Q -> option Frame) (model : Tensor -> list Q) :
  (forall n, flag n = true) ->
  forall scenes n preds,
  exists d n', collect_reads preprocess flag n cap model (map (fun s => [s]) scenes) preds = Ok (d, n')
    /\ forall k, In k scenes \/ (exists w, dict_get preds k = Ok w) ->
       exists w, dict_get d k = Ok w.
Proof.
  intro Hf. induction scenes as [|sc rest IH]; intros n preds; cbn [map collect_reads].
  - exists preds, n. split; [reflexivity|]. intros k [[]|H]. exact H.
  - rewrite Hf. cbn [negb]. rewrite task_result. cbn [res_bind]. unfold dict_update. simpl.
    destruct (IH (S n) (dict_set preds sc (scene_score preprocess cap model sc)))
      as [d [n' [Hd Hk]]].
    exists d, n'. split; [exact Hd|]. intros k Hk'. apply Hk.
    destruct Hk' as [[<-|Hin]|Hp].
    + right. apply dict_get_set_present. left. apply key_eqb_refl.
    + left. exact Hin.
    + right. apply dict_get_set_present. right. exact Hp.
Qed.

(** X8: whenever the stop requests arrive, [_analyze_video] after model
    loading and scene detection either returns ranges taken from the input
    scenes or raises [KeyError] from the score lookup; it never raises
    anything else (no [IndexError] in the decision loop).  If the worker is
    never stopped it returns, also when two scenes share a range; if it is
    stopped before the first read, it returns no range. *)
Theorem analyze_video_stop_outcomes (flag : nat -> bool) (cap : Q -> option Frame)
    (model : Tensor -> list Q) (scenes : list (Q * Q)) :
  ((exists r, analyze_video_reads preprocess flag cap model scenes = Ok r
              /\ forall sc, In sc r -> In sc scenes)
   \/ analyze_video_reads preprocess flag cap model scenes = Raise KeyError)
  /\ ((forall n, flag n = true) ->
      exists r, analyze_video_reads preprocess flag cap model scenes = Ok r)
  /\ (flag 0%nat = false -> analyze_video_reads preprocess flag cap model scenes = Ok []).
Proof.
  split; [|split].
  - destruct scenes as [|s0 rest]; [left; exists []; split; [reflexivity | intros _ []]|].
    unfold analyze_video_reads.
    destruct (submit_reads flag 0 (s0 :: rest)) as [futures n1].
    destruct (collect_reads_ok flag cap model futures n1 []) as [d [n2 Hd]].
    rewrite Hd. cbn [res_bind].
    destruct d as [|kv d']; [left; exists []; split; [reflexivity | intros _ []]|].
    destruct (lookup_scores_cases (kv :: d') (s0 :: rest)) as [[l [Hl Hlen]]|Hl];
      rewrite Hl; cbn [res_bind]; [left | right; reflexivity].
    destruct (decide_reads_go_sub flag (s0 :: rest) l l 0 n2 []) as [r [Hr Hin]].
    { rewrite Hlen. reflexivity. }
    exists r. split; [exact Hr|]. intros sc Hsc. destruct (Hin sc Hsc) as [[]|H]. exact H.
  - intro Hf. destruct scenes as [|s0 rest]; [exists []; reflexivity|].
    unfold analyze_video_reads. rewrite (submit_reads_all flag Hf).
    destruct (collect_reads_all flag cap model Hf (s0 :: rest) (0 + length (s0 :: rest)) [])
      as [d [n2 [Hd Hk]]].
    rewrite Hd. cbn [res_bind].
    destruct d as [|kv d']; [exists []; reflexivity|].
    destruct (lookup_scores_present (kv :: d') (s0 :: rest)) as [l [Hl Hlen]].
    { intros sc Hsc. apply Hk. left. exact Hsc. }
    rewrite Hl. cbn [res_bind].
    destruct (decide_reads_go_sub flag (s0 :: rest) l l 0 n2 []) as [r [Hr _]].
    { rewrite Hlen. reflexivity. }
    exists r. exact Hr.
  - intro H0. destruct scenes as [|s0 rest]; [reflexivity|].
    unfold analyze_video_reads. cbn [submit_reads]. rewrite H0. reflexivity.
Qed.

End AnalysisProofs.


(** ** Ad marks on the slider *)

Lemma py_int_of_float_nonneg x : 0 <= x -> py_int_of_float x = Qfloor x.
Proof.
  intro H. unfold py_int_of_float. replace (Qle_bool 0 x) with true; [reflexivity|].
  symmetry. apply Qle_bool_iff. exact H.
Qed.

Lemma py_int_of_float_Z z : py_int_of_float (inject_Z z) = z.
Proof.
  unfold py_int_of_float. destruct (Qle_bool 0 (inject_Z z)); [apply Qfloor_Z|].
  rewrite <- inject_Z_opp, Qfloor_Z. lia.
Qed.

Lemma py_int_of_float_mono x y : x <= y -> (py_int_of_float x <= py_int_of_float y)%Z.
Proof.
  intro H. unfold py_int_of_float.
  destruct (Qle_bool 0 x) eqn:Ex, (Qle_bool 0 y) eqn:Ey.
  - apply Qfloor_resp_le. exact H.
  - apply Qle_bool_iff in Ex. assert (Qle_bool 0 y = true) by (apply Qle_bool_iff; lra). congruence.
  - assert (H1 : (Qfloor 0 <= Qfloor (- x))%Z).
    { apply Qfloor_resp_le. apply not_true_iff_false in Ex. rewrite Qle_bool_iff in Ex. lra. }
    assert (H2 : (Qfloor 0 <= Qfloor y)%Z).
    { apply Qfloor_resp_le. apply Qle_bool_iff. exact Ey. }
    change (Qfloor 0) with 0%Z in H1, H2. lia.
  - assert (Qfloor (- y) <= Qfloor (- x))%Z by (apply Qfloor_resp_le; lra). lia.
Qed.

Lemma calculate_segments_map (ads : list (Q * Q)) total g :
  ads <> [] -> ~ total == 0 ->
  _calculate_segments ads total g
  = map (fun se =>
           {| rect_x := rect_x g + py_int_of_float (fst se * (inject_Z (rect_w g) / total));
              rect_y := rect_y g;
              rect_w := py_int_of_float (snd se * (inject_Z (rect_w g) / total))
                        - py_int_of_float (fst se * (inject_Z (rect_w g) / total));
              rect_h := rect_h g |}) ads.
Proof.
  intros Hne Ht. unfold _calculate_segments.
  destruct ads as [|a l]; [contradiction|].
  replace (Qeq_bool total 0) with false; [reflexivity|].
  symmetry. apply not_true_iff_false. rewrite Qeq_bool_iff. exact Ht.
Qed.

(** X9: for a positive [total_duration], a groove of non-negative width
    and ad segments with [0 <= start <= end <= total_duration], every mark
    [_calculate_segments] returns has a non-negative width, lies within the
    groove horizontally, and has the groove's [y] and height. *)
Theorem calculate_segments_within_groove (ads : list (Q * Q)) total g :
  0 < total -> (0 <= rect_w g)%Z ->
  (forall se, In se ads -> 0 <= fst se /\ fst se <= snd se /\ snd se <= total) ->
  forall r, In r (_calculate_segments ads total g) ->
    (rect_x g <= rect_x r)%Z /\ (0 <= rect_w r)%Z
    /\ (rect_x r + rect_w r <= rect_x g + rect_w g)%Z
    /\ rect_y r = rect_y g /\ rect_h r = rect_h g.
Proof.
  intros Ht Hw Hads r Hr.
  destruct ads as [|a l]; [destruct Hr|].
  rewrite calculate_segments_map in Hr by (discriminate || lra).
  apply in_map_iff in Hr. destruct Hr as [[s e] [<- Hin]].
  destruct (Hads _ Hin) as [H0 [Hse HeT]]. simpl in H0, Hse, HeT. simpl.
  set (W := inject_Z (rect_w g) / total).
  assert (HW : 0 <= W).
  { unfold W. apply Qle_shift_div_l; [exact Ht|].
    rewrite Qmult_0_l. change 0 with (inject_Z 0). rewrite <- Zle_Qle. exact Hw. }
  assert (A1 : (0 <= py_int_of_float (s * W))%Z).
  { change 0%Z with (py_int_of_float 0). apply py_int_of_float_mono.
    apply Qmult_le_0_compat; assumption. }
  assert (A2 : (py_int_of_float (s * W) <= py_int_of_float (e * W))%Z).
  { apply py_int_of_float_mono. apply Qmult_le_compat_r; assumption. }
  assert (A3 : (py_int_of_float (e * W) <= rect_w g)%Z).
  { rewrite <- (py_int_of_float_Z (rect_w g)). apply py_int_of_float_mono.
    apply Qle_trans with (total * W); [apply Qmult_le_compat_r; assumption|].
    unfold W. apply Qle_lteq. right. field. intro H. rewrite H in Ht. apply (Qlt_irrefl 0 Ht). }
  repeat split; lia.
Qed.

(** X10: for a positive [total_duration] and a groove of non-negative
    width, an ad segment ending no later than another one starts gets a
    mark that ends no later than the other's mark starts. *)
Theorem calculate_segments_ordered (ads : list (Q * Q)) total g i j s1 e1 s2 e2 :
  0 < total -> (0 <= rect_w g)%Z ->
  nth_error ads i = Some (s1, e1) -> nth_error ads j = Some (s2, e2) -> e1 <= s2 ->
  exists r1 r2, nth_error (_calculate_segments ads total g) i = Some r1
    /\ nth_error (_calculate_segments ads total g) j = Some r2
    /\ (rect_x r1 + rect_w r1 <= rect_x r2)%Z.
Proof.
  intros Ht Hw Hi Hj He.
  destruct ads as [|a l]; [destruct i; discriminate|].
  rewrite calculate_segments_map by (discriminate || lra).
  rewrite !nth_error_map, Hi, Hj. simpl.
  eexists. eexists. split; [reflexivity|]. split; [reflexivity|]. simpl.
  set (W := inject_Z (rect_w g) / total).
  assert (HW : 0 <= W).
  { unfold W. apply Qle_shift_div_l; [exact Ht|].
    rewrite Qmult_0_l. change 0 with (inject_Z 0). rewrite <- Zle_Qle. exact Hw. }
  assert (py_int_of_float (e1 * W) <= py_int_of_float (s2 * W))%Z
    by (apply py_int_of_float_mono; apply Qmult_le_compat_r; assumption).
  lia.
Qed.

(** ** Background worker *)

(** X11: as long as [_is_running] is only ever cleared ([stop]), never set
    again, [Worker.run] emits nothing, or the task's result (or its error)
    once, possibly followed by [finished]; [finished] is never emitted
    without a preceding result or error, and a task that does not return
    emits nothing. *)
Theorem worker_run_signals {A} (running0 running1 running2 : bool) (r : res A) :
  (running1 = true -> running0 = true) -> (running2 = true -> running1 = true) ->
  worker_run running0 running1 running2 r = []
  \/ exists s, match r with
               | Ok a => s = SigResult a
               | Raise e => s = SigError e
               | OutOfFuel => False
               end
       /\ (worker_run running0 running1 running2 r = [s]
           \/ worker_run running0 running1 running2 r = [s; SigFinished]).
Proof.
  intros H1 H2.
  destruct running0, running1, running2;
    try (specialize (H1 eq_refl); discriminate);
    try (specialize (H2 eq_refl); discriminate);
    destruct r as [a|e|]; simpl;
    first [ left; reflexivity
          | right; eexists; split; [reflexivity | first [left; reflexivity | right; reflexivity]] ].
Qed.

(** ** Model cache *)

Lemma assoc_get_app {V} (l1 l2 : list (string * V)) k :
  assoc_get (l1 ++ l2) k = match assoc_get l1 k with Some v => Some v | None => assoc_get l2 k end.
Proof.
  induction l1 as [|[k' v'] l1 IH]; simpl; [reflexivity|].
  destruct (String.eqb k k'); [reflexivity | exact IH].
Qed.

(** X12: [load_model] changes [PRELOADED_MODELS] only by adding the model it
    has just loaded, under the requested name that was not cached before;
    every other outcome leaves the cache as it was.  Once a model has been
    returned, later calls with the same name return the same model from the
    cache, whatever the files on disk then hold. *)
Theorem load_model_cache (fs : FileSystem) (st : list (string * Handle)) name r st' :
  load_model fs st name = (r, st') ->
  (st' = st \/ exists h, r = Ok (Some h) /\ assoc_get st name = None /\ st' = st ++ [(name, h)])
  /\ (forall h, r = Ok (Some h) -> forall fs', load_model fs' st' name = (Ok (Some h), st')).
Proof.
  unfold load_model. destruct (assoc_get st name) as [m|] eqn:Hg.
  - intro H. injection H as <- <-. split; [left; reflexivity|].
    intros h Hh fs'. injection Hh as <-. rewrite Hg. reflexivity.
  - destruct (assoc_get AVAILABLE_MODELS name) as [p|] eqn:Ha; simpl.
    2:{ intro H. injection H as <- <-. split; [left; reflexivity | intros h Hh; discriminate]. }
    destruct (_ && _ && _); simpl.
    { intro H. injection H as <- <-. split; [left; reflexivity | intros h Hh; discriminate]. }
    destruct (create_model_ok fs); simpl.
    2:{ intro H. injection H as <- <-. split; [left; reflexivity | intros h Hh; discriminate]. }
    destruct (negb (String.eqb p "")); [destruct (state_dict_loads fs p)|];
      intro H; injection H as <- <-.
    + split.
      * right. eexists. split; [reflexivity|]. split; [reflexivity | reflexivity].
      * intros h Hh fs'. injection Hh as <-. rewrite assoc_get_app, Hg. simpl.
        rewrite String.eqb_refl. reflexivity.
    + split; [left; reflexivity | intros h Hh; discriminate].
    + split; [left; reflexivity | intros h Hh; discriminate].
Qed.

(** X13: [preload_all_models] raises exactly when loading "Swin" (not yet
    cached) meets a damaged zip archive that has to be extracted or a
    failing [timm.create_model]; a weights file that does not load is
    reported and leaves the cache as it was; a model that loads is cached. *)
Theorem preload_all_models_effect (fs : FileSystem) (st : list (string * Handle)) :
  preload_all_models fs st
  = match assoc_get st "Swin" with
    | Some _ => (Ok tt, st)
    | None =>
        if path_exists fs "../models/ad_classifier_swin.zip"
           && negb (path_exists fs "../ad_classifier_swin.pth")
           && negb (zip_extracts fs "../models/ad_classifier_swin.zip")
        then (Raise BadZipFile, st)
        else if negb (create_model_ok fs) then (Raise CreateModelError, st)
        else if state_dict_loads fs "../models/ad_classifier_swin.pth"
        then (Ok tt, st ++ [("Swin", {| arch := "swin_tiny_patch4_window7_224";
                                        weights := "../models/ad_classifier_swin.pth" |})])
        else (Ok tt, st)
    end.
Proof.
  unfold preload_all_models. simpl map. cbn [preload_go]. unfold load_model.
  destruct (assoc_get st "Swin") eqn:E; [reflexivity|].
  simpl.
  change (str_replace ".pth" ".zip" "../models/ad_classifier_swin.pth")
    with "../models/ad_classifier_swin.zip".
  destruct (path_exists fs "../models/ad_classifier_swin.zip"),
           (path_exists fs "../ad_classifier_swin.pth"),
           (zip_extracts fs "../models/ad_classifier_swin.zip"),
           (create_model_ok fs),
           (state_dict_loads fs "../models/ad_classifier_swin.pth"); reflexivity.
Qed.

(** ** Time codes *)

Lemma str_append_assoc a b c :
  String.append (String.append a b) c = String.append a (String.append b c).
Proof. induction a as [|x a IH]; simpl; [reflexivity | now rewrite IH]. Qed.

Lemma str_append_empty_r a : String.append a "" = a.
Proof. induction a as [|x a IH]; simpl; [reflexivity | now rewrite IH]. Qed.

Lemma str_length_append a b :
  String.length (String.append a b) = (String.length a + String.length b)%nat.
Proof. induction a as [|x a IH]; simpl; [reflexivity | now rewrite IH]. Qed.

Lemma str_has_colon_append a b :
  str_has_colon (String.append a b) = str_has_colon a || str_has_colon b.
Proof. induction a as [|x a IH]; simpl; [reflexivity | rewrite IH; apply orb_assoc]. Qed.

Lemma is_digit_facts c :
  is_digit c = true ->
  py_isspace c = false /\ Ascii.eqb c ":" = false /\ Ascii.eqb c "+" = false
  /\ Ascii.eqb c "-" = false.
Proof.
  intro H. rewrite <- (ascii_nat_embedding c). unfold is_digit in H.
  apply andb_true_iff in H. destruct H as [H1 H2].
  apply Nat.leb_le in H1. apply Nat.leb_le in H2.
  assert (Hc : (nat_of_ascii c = 48 \/ nat_of_ascii c = 49 \/ nat_of_ascii c = 50
            \/ nat_of_ascii c = 51 \/ nat_of_ascii c = 52 \/ nat_of_ascii c = 53
            \/ nat_of_ascii c = 54 \/ nat_of_ascii c = 55 \/ nat_of_ascii c = 56
            \/ nat_of_ascii c = 57)%nat) by lia.
  repeat destruct Hc as [Hc|Hc]; rewrite Hc; repeat split; reflexivity.
Qed.

Lemma digit_char_facts d :
  (0 <= d < 10)%Z -> is_digit (digit_char d) = true /\ digit_val (digit_char d) = d.
Proof.
  intro H.
  assert (Hd : (d = 0 \/ d = 1 \/ d = 2 \/ d = 3 \/ d = 4 \/ d = 5 \/ d = 6 \/ d = 7
            \/ d = 8 \/ d = 9)%Z) by lia.
  repeat destruct Hd as [Hd|Hd]; subst d; split; reflexivity.
Qed.

Lemma str_of_Z_go_app fuel : forall n acc,
  str_of_Z_go fuel n acc = String.append (str_of_Z_go fuel n "") acc.
Proof.
  induction fuel as [|fuel IH]; intros n acc; simpl; [reflexivity|].
  destruct (Z.ltb n 10); [reflexivity|].
  rewrite IH, (IH _ (String _ "")), str_append_assoc. reflexivity.
Qed.

Lemma str_of_Z_go_S fuel n acc :
  str_of_Z_go (S fuel) n acc
  = if Z.ltb n 10 then String (digit_char (n mod 10)) acc
    else str_of_Z_go fuel (n / 10) (String (digit_char (n mod 10)) acc).
Proof. reflexivity. Qed.

Lemma parse_digits_digit c t A prev nd :
  is_digit c = true ->
  parse_digits (String c t) A prev nd = parse_digits t (A * 10 + digit_val c) true (S nd).
Proof. intro H. simpl. rewrite H. reflexivity. Qed.

(** The decimal printer with enough fuel: a non-empty string of digits,
    ending in the last digit of [n], read back as [n] by [int]. *)
Lemma str_of_Z_go_spec fuel : forall n,
  (0 <= n < 10 ^ Z.of_nat (S fuel))%Z ->
  let s := str_of_Z_go (S fuel) n "" in
  (exists c r, s = String c r /\ is_digit c = true)
  /\ (exists p, s = String.append p (String (digit_char (n mod 10)) ""))
  /\ str_has_colon s = false
  /\ (forall k, (1 <= k)%nat -> (n < 10 ^ Z.of_nat k)%Z -> (String.length s <= k)%nat)
  /\ (forall t A prev nd,
        parse_digits (String.append s t) A prev nd
        = parse_digits t (A * 10 ^ Z.of_nat (String.length s) + n) true
                       (nd + String.length s)).
Proof.
  induction fuel as [|fuel IH]; intros n Hn s; subst s; rewrite str_of_Z_go_S.
  all: destruct (Z.ltb_spec n 10) as [Hlt|Hge].
  1, 3:
    rewrite (Z.mod_small n 10) by lia;
    destruct (digit_char_facts n) as [Hd Hv]; [lia|];
    split; [exists (digit_char n), ""; split; [reflexivity | exact Hd]|];
    split; [exists ""; reflexivity|];
    split; [cbn [str_has_colon]; rewrite (proj1 (proj2 (is_digit_facts _ Hd))); reflexivity|];
    split; [intros k Hk _; cbn [String.length]; lia|];
    intros t A prev nd; cbn [String.append String.length];
    rewrite parse_digits_digit by exact Hd; rewrite Hv; f_equal; lia.
  - exfalso. cbn in Hn. lia.
  - assert (Hq : (0 <= n / 10 < 10 ^ Z.of_nat (S fuel))%Z).
    { split; [apply Z.div_pos; lia|]. apply Z.div_lt_upper_bound; [lia|].
      rewrite <- Z.pow_succ_r by lia. rewrite <- Nat2Z.inj_succ. lia. }
    destruct (IH (n / 10)%Z Hq) as [[c [r [Hfirst Hc]]] [_ [Hcol [Hlen Hparse]]]].
    set (d := digit_char (n mod 10)) in *.
    destruct (digit_char_facts (n mod 10)) as [Hd Hv]; [apply Z.mod_pos_bound; lia|].
    fold d in Hd, Hv.
    rewrite str_of_Z_go_app.
    set (P := str_of_Z_go (S fuel) (n / 10)%Z "") in *.
    split; [rewrite Hfirst; exists c, (String.append r (String d "")); split; [reflexivity | exact Hc]|].
    split; [exists P; reflexivity|].
    split.
    { rewrite str_has_colon_append, Hcol. cbn [str_has_colon].
      rewrite (proj1 (proj2 (is_digit_facts _ Hd))). reflexivity. }
    split.
    { intros k Hk Hnk. rewrite str_length_append. cbn [String.length].
      destruct k as [|[|k]]; [lia| |].
      - exfalso. cbn in Hnk. lia.
      - assert (Hk' : (n / 10 < 10 ^ Z.of_nat (S k))%Z).
        { apply Z.div_lt_upper_bound; [lia|].
          rewrite <- Z.pow_succ_r by lia. rewrite <- Nat2Z.inj_succ. exact Hnk. }
        specialize (Hlen (S k) ltac:(lia) Hk'). lia. }
    intros t A prev nd.
    rewrite str_append_assoc. cbn [String.append].
    rewrite Hparse, parse_digits_digit by exact Hd.
    rewrite str_length_append. cbn [String.length].
    rewrite Hv. f_equal; [|lia].
    assert (Hdm : n = (10 * (n / 10) + n mod 10)%Z) by (apply Z.div_mod; lia).
    rewrite Nat2Z.inj_add, Z.pow_add_r by lia. change (10 ^ Z.of_nat 1)%Z with 10%Z.
    rewrite Z.mul_assoc. set (X := (A * 10 ^ Z.of_nat (String.length P))%Z). lia.
Qed.

Lemma str_of_nonneg_fuel n :
  (0 <= n)%Z -> (n < 10 ^ Z.of_nat (S (Z.to_nat (Z.log2 n))))%Z.
Proof.
  intro H. rewrite Nat2Z.inj_succ, Z2Nat.id by apply Z.log2_nonneg.
  destruct (Z.eq_dec n 0) as [->|Hn]; [cbn; lia|].
  destruct (Z.log2_spec n ltac:(lia)) as [_ H2].
  eapply Z.lt_le_trans; [exact H2|]. apply Z.pow_le_mono_l. lia.
Qed.

Lemma rstrip_last p d :
  py_isspace d = false -> rstrip (String.append p (String d "")) = String.append p (String d "").
Proof.
  intro Hd. induction p as [|c p IH]; cbn [String.append rstrip].
  - rewrite Hd. reflexivity.
  - rewrite IH. destruct p; reflexivity.
Qed.

Lemma strip_id s c r p d :
  s = String c r -> py_isspace c = false ->
  s = String.append p (String d "") -> py_isspace d = false ->
  strip s = s.
Proof.
  intros Hf Hc Hl Hd. unfold strip.
  assert (E : lstrip s = s) by (rewrite Hf; cbn [lstrip]; rewrite Hc; reflexivity).
  rewrite E, Hl. apply rstrip_last. exact Hd.
Qed.

Lemma fmt02_spec n :
  (Z.abs n < 10 ^ 4300)%Z ->
  (exists c r, fmt02 n = String c r /\ py_isspace c = false)
  /\ (exists p d, fmt02 n = String.append p (String d "") /\ py_isspace d = false)
  /\ str_has_colon (fmt02 n) = false
  /\ py_int (fmt02 n) = Some n.
Proof.
  intro Hb. unfold fmt02.
  set (m := Z.abs n).
  assert (Hm : (0 <= m)%Z) by apply Z.abs_nonneg.
  destruct (str_of_Z_go_spec (Z.to_nat (Z.log2 m)) m (conj Hm (str_of_nonneg_fuel m Hm)))
    as [[c [r [Hfirst Hc]]] [[p Hlast] [Hcol [Hlen Hparse]]]].
  change (str_of_Z_go (S (Z.to_nat (Z.log2 m))) m "") with (str_of_nonneg m) in *.
  assert (HL : (String.length (str_of_nonneg m) <= 4300)%nat)
    by (apply (Hlen 4300%nat); [apply le_n_S, Nat.le_0_l | exact Hb]).
  pose proof (Hparse "") as Hp. rewrite str_append_empty_r in Hp.
  destruct (digit_char_facts (m mod 10)) as [Hd _]; [apply Z.mod_pos_bound; lia|].
  destruct (is_digit_facts _ Hd) as [Hds _].
  destruct (is_digit_facts _ Hc) as [Hcs [_ [Hcp Hcm]]].
  clear Hb.
  destruct (Z.ltb_spec n 0) as [Hneg|Hpos]; [|destruct (Z.ltb_spec n 10) as [Hs|Hl]];
    [replace (- n)%Z with m by (unfold m; lia)
    | replace (str_of_nonneg n) with (str_of_nonneg m) by (unfold m; f_equal; lia)
    | replace (str_of_nonneg n) with (str_of_nonneg m) by (unfold m; f_equal; lia)];
    set (s := str_of_nonneg m) in *; clearbody s;
    set (L := String.length s) in *; clearbody L.
  - assert (Hst : strip (String "-" s) = String "-" s).
    { apply (strip_id _ "-" s (String "-" p) (digit_char (m mod 10)));
        [reflexivity | reflexivity | rewrite Hlast; reflexivity | exact Hds]. }
    split; [exists "-"%char, s; split; reflexivity|].
    split; [exists (String "-" p), (digit_char (m mod 10)); split; [rewrite Hlast; reflexivity | exact Hds]|].
    split; [cbn [str_has_colon]; rewrite Hcol; reflexivity|].
    unfold py_int. rewrite Hst. cbn [Ascii.eqb Bool.eqb andb].
    specialize (Hp 0%Z false 0%nat). rewrite Z.mul_0_l, Z.add_0_l, Nat.add_0_l in Hp.
    rewrite Hp. cbn [parse_digits]. rewrite (proj2 (Nat.leb_le L 4300) HL).
    cbn [option_map]. f_equal. unfold m. lia.
  - assert (Hst : strip (String "0" s) = String "0" s).
    { apply (strip_id _ "0" s (String "0" p) (digit_char (m mod 10)));
        [reflexivity | reflexivity | rewrite Hlast; reflexivity | exact Hds]. }
    split; [exists "0"%char, s; split; reflexivity|].
    split; [exists (String "0" p), (digit_char (m mod 10)); split; [rewrite Hlast; reflexivity | exact Hds]|].
    split; [cbn [str_has_colon]; rewrite Hcol; reflexivity|].
    unfold py_int. rewrite Hst. cbn [Ascii.eqb Bool.eqb andb].
    rewrite parse_digits_digit by reflexivity.
    specialize (Hp (0 * 10 + digit_val "0")%Z true 1%nat).
    replace (0 * 10 + digit_val "0")%Z with 0%Z in Hp by reflexivity.
    rewrite Z.mul_0_l, Z.add_0_l in Hp. change (0 * 10 + digit_val "0")%Z with 0%Z.
    rewrite Hp. cbn [parse_digits].
    assert (HL1 : (L <= 1)%nat) by (apply Hlen; [lia | unfold m; cbn; lia]).
    rewrite (proj2 (Nat.leb_le (1 + L) 4300) ltac:(lia)). f_equal. unfold m. lia.
  - assert (Hmn : m = n) by (unfold m; lia). rewrite Hmn in *.
    assert (Hst : strip s = s).
    { apply (strip_id _ c r p (digit_char (n mod 10))); assumption. }
    split; [exists c, r; split; assumption|].
    split; [exists p, (digit_char (n mod 10)); split; assumption|].
    split; [exact Hcol|].
    unfold py_int. rewrite Hst. rewrite Hfirst at 1. rewrite Hcp, Hcm.
    specialize (Hp 0%Z false 0%nat). rewrite Z.mul_0_l, Z.add_0_l, Nat.add_0_l in Hp.
    rewrite Hp. cbn [parse_digits]. rewrite (proj2 (Nat.leb_le L 4300) HL). reflexivity.
Qed.

Lemma split_colon_nocolon b : str_has_colon b = false -> split_colon b = [b].
Proof.
  induction b as [|c b IH]; intro H; cbn [split_colon]; [reflexivity|].
  cbn [str_has_colon] in H. apply orb_false_iff in H. destruct H as [H1 H2].
  rewrite H1, IH by exact H2. reflexivity.
Qed.

Lemma split_colon_two a b :
  str_has_colon a = false -> str_has_colon b = false ->
  split_colon (String.append a (String ":" b)) = [a; b].
Proof.
  intros Ha Hb. induction a as [|c a IH]; cbn [String.append split_colon].
  - rewrite split_colon_nocolon by exact Hb. reflexivity.
  - cbn [str_has_colon] in Ha. apply orb_false_iff in Ha. destruct Ha as [H1 H2].
    rewrite H1, IH by exact H2. reflexivity.
Qed.

Lemma split_colon_nonempty s : split_colon s <> [].
Proof.
  destruct s as [|c s]; cbn [split_colon]; [discriminate|].
  destruct (Ascii.eqb c ":"); [discriminate|]. destruct (split_colon s); discriminate.
Qed.

Lemma split_colon_length_append a s :
  (length (split_colon s) <= length (split_colon (String.append a s)))%nat.
Proof.
  induction a as [|c a IH]; cbn [String.append split_colon]; [lia|].
  destruct (Ascii.eqb c ":"); cbn [length]; [lia|].
  pose proof (split_colon_nonempty (String.append a s)) as Hne.
  destruct (split_colon (String.append a s)); [contradiction | cbn [length] in *; lia].
Qed.

Lemma map_py_int_length parts l : map_py_int parts = Some l -> length l = length parts.
Proof.
  revert l. induction parts as [|p ps IH]; intros l H; cbn [map_py_int] in H.
  - injection H as <-. reflexivity.
  - destruct (py_int p), (map_py_int ps) as [vs|] eqn:E; try discriminate.
    injection H as <-. cbn [length]. f_equal. apply IH. reflexivity.
Qed.

Lemma parse_time_two_parts text a b :
  str_has_colon a = false -> str_has_colon b = false ->
  strip text = String.append a (String ":" b) ->
  parse_time text = match py_int a, py_int b with
                    | Some m, Some s => Some (m * 60 + s)%Z
                    | _, _ => None
                    end.
Proof.
  intros Ha Hb Ht. unfold parse_time. rewrite Ht.
  rewrite str_has_colon_append. cbn [str_has_colon Ascii.eqb Bool.eqb andb].
  rewrite orb_true_r. rewrite split_colon_two by assumption.
  cbn [map_py_int]. destruct (py_int a), (py_int b); reflexivity.
Qed.

(** X14: [parse_time] on a text that is, once stripped, two colon-free
    parts around one ':' returns [int(minutes) * 60 + int(seconds)] when
    [int] accepts both parts, and [None] otherwise. *)
Theorem parse_time_minutes_seconds text a b :
  str_has_colon a = false -> str_has_colon b = false ->
  strip text = String.append a (String ":" b) ->
  parse_time text = match py_int a, py_int b with
                    | Some m, Some s => Some (m * 60 + s)%Z
                    | _, _ => None
                    end.
Proof. apply parse_time_two_parts. Qed.

(** X15: a text with two or more ':' (such as an "h:mm:ss" time code) is
    rejected by [parse_time] with [None], whatever its parts are. *)
Theorem parse_time_three_parts_none text a b c :
  strip text = String.append a (String ":" (String.append b (String ":" c))) ->
  parse_time text = None.
Proof.
  intro Ht. unfold parse_time. rewrite Ht.
  rewrite str_has_colon_append. cbn [str_has_colon Ascii.eqb Bool.eqb andb].
  rewrite orb_true_r.
  assert (Hlen : (3 <= length (split_colon
                   (String.append a (String ":" (String.append b (String ":" c))))))%nat).
  { eapply Nat.le_trans; [|apply split_colon_length_append].
    cbn [split_colon Ascii.eqb Bool.eqb andb length].
    eapply Nat.le_trans; [|apply le_n_S, split_colon_length_append].
    cbn [split_colon Ascii.eqb Bool.eqb andb length].
    pose proof (split_colon_nonempty c) as Hne.
    destruct (split_colon c); [contradiction | cbn [length]; lia]. }
  destruct (map_py_int _) as [l|] eqn:Hm; [|reflexivity].
  apply map_py_int_length in Hm. rewrite <- Hm in Hlen.
  destruct l as [|x [|y [|z l]]]; cbn [length] in Hlen; [lia | lia | lia | reflexivity].
Qed.

Lemma parse_time_fmt02 m s :
  (Z.abs m < 10 ^ 4300)%Z -> (Z.abs s < 10 ^ 4300)%Z ->
  parse_time (String.append (fmt02 m) (String ":" (fmt02 s))) = Some (m * 60 + s)%Z.
Proof.
  intros Hm Hs.
  destruct (fmt02_spec m Hm) as [[c [r [Hf Hc]]] [_ [Hcm Hpm]]].
  destruct (fmt02_spec s Hs) as [_ [[p [d [Hl Hd]]] [Hcs Hps]]].
  rewrite (parse_time_two_parts _ (fmt02 m) (fmt02 s)); [rewrite Hpm, Hps; reflexivity | exact Hcm | exact Hcs|].
  apply (strip_id _ c (String.append r (String ":" (fmt02 s)))
                    (String.append (fmt02 m) (String ":" p)) d).
  - rewrite Hf. reflexivity.
  - exact Hc.
  - rewrite str_append_assoc. cbn [String.append]. rewrite <- Hl. reflexivity.
  - exact Hd.
Qed.

Lemma Qfloor_plus_Z x z : Qfloor (x + inject_Z z) = (Qfloor x + z)%Z.
Proof.
  pose proof (Qfloor_le x) as H1. pose proof (Qlt_floor x) as H2.
  pose proof (Qfloor_le (x + inject_Z z)) as H3. pose proof (Qlt_floor (x + inject_Z z)) as H4.
  rewrite inject_Z_plus in H2, H4.
  assert (A : (Qfloor x + z <= Qfloor (x + inject_Z z))%Z).
  { rewrite <- (Qfloor_Z (Qfloor x + z)). apply Qfloor_resp_le.
    rewrite inject_Z_plus. lra. }
  assert (B : (Qfloor (x + inject_Z z) < Qfloor x + z + 1)%Z).
  { rewrite Zlt_Qlt. rewrite !inject_Z_plus. lra. }
  lia.
Qed.

Lemma minutes_seconds_split seconds :
  py_int_of_float (py_floordiv seconds 60) = Qfloor (seconds / 60)
  /\ py_int_of_float (py_fmod seconds 60) = (Qfloor seconds - 60 * Qfloor (seconds / 60))%Z
  /\ (0 <= Qfloor seconds - 60 * Qfloor (seconds / 60) < 60)%Z.
Proof.
  unfold py_floordiv, py_fmod. rewrite py_int_of_float_Z.
  set (m := Qfloor (seconds / 60)).
  assert (Hlo : 60 * inject_Z m <= seconds).
  { pose proof (Qfloor_le (seconds / 60)) as H. fold m in H.
    apply Qmult_le_compat_r with (z := 60) in H; [|lra].
    assert (E : seconds / 60 * 60 == seconds) by (field; discriminate).
    rewrite E in H. lra. }
  assert (Hhi : seconds < 60 * inject_Z m + 60).
  { pose proof (Qlt_floor (seconds / 60)) as H. fold m in H.
    rewrite inject_Z_plus in H. change (inject_Z 1) with 1 in H.
    apply Qmult_lt_compat_r with (z := 60) in H; [|lra].
    assert (E : seconds / 60 * 60 == seconds) by (field; discriminate).
    rewrite E in H. lra. }
  rewrite py_int_of_float_nonneg by lra.
  assert (Hsec : Qfloor (seconds - 60 * inject_Z m) = (Qfloor seconds - 60 * m)%Z).
  { assert (E : seconds - 60 * inject_Z m == seconds + inject_Z (- (60 * m))).
    { rewrite inject_Z_opp, inject_Z_mult. reflexivity. }
    rewrite E, Qfloor_plus_Z. lia. }
  rewrite Hsec. split; [reflexivity|]. split; [reflexivity|].
  rewrite <- Hsec. split.
  - change 0%Z with (Qfloor 0). apply Qfloor_resp_le. lra.
  - pose proof (Qfloor_le (seconds - 60 * inject_Z m)) as H.
    rewrite Zlt_Qlt. change (inject_Z 60) with 60. lra.
Qed.

(** X16: [parse_time] reads back what [format_time] prints: for every
    time [0 <= seconds < 2^53], [parse_time(format_time(seconds))] is
    [floor(seconds)], the time truncated to whole seconds. *)
Theorem format_time_parse_time seconds :
  0 <= seconds -> seconds < inject_Z (2 ^ 53) ->
  parse_time (format_time seconds) = Some (Qfloor seconds).
Proof.
  intros H0 H1. unfold format_time.
  destruct (minutes_seconds_split seconds) as [Hm [Hs Hr]].
  rewrite Hm, Hs. set (m := Qfloor (seconds / 60)) in *.
  assert (Hm0 : (0 <= m)%Z).
  { change 0%Z with (Qfloor 0). apply Qfloor_resp_le.
    apply Qle_shift_div_l; [reflexivity|]. rewrite Qmult_0_l. exact H0. }
  assert (Hm1 : (m < 2 ^ 53)%Z).
  { rewrite Zlt_Qlt. apply Qle_lt_trans with (seconds / 60); [apply Qfloor_le|].
    apply Qle_lt_trans with seconds; [|exact H1].
    apply Qle_shift_div_r; [reflexivity|]. lra. }
  assert (Hp : (2 ^ 53 < 10 ^ 4300)%Z) by (apply Z.ltb_lt; vm_compute; reflexivity).
  assert (Hb : (Z.abs m < 10 ^ 4300)%Z).
  { rewrite Z.abs_eq by exact Hm0. set (P := (10 ^ 4300)%Z) in *. clearbody P.
    set (T := (2 ^ 53)%Z) in *. clearbody T. lia. }
  clear Hp.
  rewrite parse_time_fmt02; [f_equal; clear Hb; lia | exact Hb|].
  clear Hb. apply Z.lt_le_trans with 100%Z; [lia|]. change 100%Z with (10 ^ 2)%Z.
  apply Z.pow_le_mono_r; lia.
Qed.

(** X17: the report splits a total ad duration [0 <= total < 2^53] (the
    float sum is non-negative when no segment ends before it starts) into
    non-negative whole minutes and seconds with [0 <= seconds < 60] and
    [minutes * 60 + seconds] equal to the total truncated to whole
    seconds. *)
Theorem duration_split_bounds (total : Q) :
  0 <= total -> total < inject_Z (2 ^ 53) ->
  (0 <= snd (duration_split total) < 60)%Z
  /\ (fst (duration_split total) * 60 + snd (duration_split total) = Qfloor total)%Z
  /\ (0 <= fst (duration_split total))%Z.
Proof.
  intros H0 _. unfold duration_split. simpl fst. simpl snd.
  destruct (minutes_seconds_split total) as [Hm [Hs Hr]].
  rewrite Hm, Hs. split; [exact Hr|]. split; [lia|].
  change 0%Z with (Qfloor 0). apply Qfloor_resp_le.
  apply Qle_shift_div_l; [reflexivity|]. rewrite Qmult_0_l. exact H0.
Qed.

(** ** Witnesses of the further properties *)

Lemma weighted_score_range_witness :
  0 <= 1 # 2 /\ 0 < 3
  /\ (exists r, process_video_segments_weigth id_frame cap_demo model_demo 0 3 (1 # 2) = Ok r
               /\ r == 400 # 7)
  /\ match process_video_segments_weigth id_frame cap_demo model_demo 0 3 (1 # 2) with
     | Ok r => 0 <= r <= 100
     | Raise _ => False
     | OutOfFuel => True
     end.
Proof.
  split; [discriminate|]. split; [reflexivity|].
  split; [eexists; split; vm_compute; reflexivity|].
  apply (weighted_score_range id_frame cap_demo model_demo 0 3 (1 # 2)); [discriminate | reflexivity].
Defined.

Lemma detect_ad_scenes_threshold_extremes_witness :
  detect_ad_scenes_from_segments id_frame cap_demo model_demo [(0, 1); (1, 3)] 100 = Ok []
  /\ detect_ad_scenes_from_segments id_frame cap_demo model_demo [(0, 1); (1, 3)] (-1)
     = Ok [(0, 1); (1, 3)].
Proof.
  split.
  - apply (proj1 (detect_ad_scenes_threshold_extremes id_frame cap_demo model_demo
                    [(0, 1); (1, 3)] 100)). vm_compute. discriminate.
  - apply (proj2 (detect_ad_scenes_threshold_extremes id_frame cap_demo model_demo
                    [(0, 1); (1, 3)] (-1))). reflexivity.
Defined.

Lemma decide_keeps_strong_witness :
  length [(0, 1); (1, 2)] = length [20; 0] /\ nth_error [(0, 1); (1, 2)] 0 = Some (0, 1)
  /\ 25 # 2 <= nth 0 [20; 0] 0
  /\ exists r, decide true [(0, 1); (1, 2)] [20; 0] = Ok r /\ In (0, 1) r.
Proof.
  split; [reflexivity|]. split; [reflexivity|]. split; [vm_compute; discriminate|].
  apply (decide_keeps_strong [(0, 1); (1, 2)] [20; 0] 0 (0, 1));
    [reflexivity | reflexivity | vm_compute; discriminate].
Defined.

Lemma decide_kept_reason_witness :
  decide true [(0, 1); (1, 2); (2, 3)] [3; 20; 3] = Ok [(0, 1); (1, 2); (2, 3)]
  /\ exists i, nth_error [(0, 1); (1, 2); (2, 3)] i = Some (0, 1)
    /\ (25 # 2 <= nth i [3; 20; 3] 0
        \/ (5 # 2 <= nth i [3; 20; 3] 0
            /\ (((0 < i)%nat /\ 25 # 2 <= nth (i - 1) [3; 20; 3] 0)
                \/ ((S i < length [3; 20; 3])%nat /\ 25 # 2 <= nth (S i) [3; 20; 3] 0)))).
Proof.
  split; [reflexivity|].
  apply (decide_kept_reason [(0, 1); (1, 2); (2, 3)] [3; 20; 3] [(0, 1); (1, 2); (2, 3)] (0, 1));
    [reflexivity | reflexivity | simpl; left; reflexivity].
Defined.

Lemma calculate_segments_within_groove_witness :
  _calculate_segments [(1, 2)] 4 {| rect_x := 10; rect_y := 5; rect_w := 100; rect_h := 8 |}
  = [{| rect_x := 35; rect_y := 5; rect_w := 25; rect_h := 8 |}]
  /\ (10 <= 35)%Z /\ (0 <= 25)%Z /\ (35 + 25 <= 10 + 100)%Z /\ 5%Z = 5%Z /\ 8%Z = 8%Z.
Proof.
  split; [vm_compute; reflexivity|].
  refine (calculate_segments_within_groove [(1, 2)] 4
           {| rect_x := 10; rect_y := 5; rect_w := 100; rect_h := 8 |} _ _ _
           {| rect_x := 35; rect_y := 5; rect_w := 25; rect_h := 8 |} _);
    [reflexivity | vm_compute; discriminate
    | intros se [<-|[]]; simpl; split; [|split]; vm_compute; discriminate
    | vm_compute; left; reflexivity].
Defined.

Lemma calculate_segments_ordered_witness :
  exists r1 r2,
    nth_error (_calculate_segments [(1, 2); (2, 3)] 4
                 {| rect_x := 10; rect_y := 5; rect_w := 100; rect_h := 8 |}) 0 = Some r1
    /\ nth_error (_calculate_segments [(1, 2); (2, 3)] 4
                 {| rect_x := 10; rect_y := 5; rect_w := 100; rect_h := 8 |}) 1 = Some r2
    /\ (rect_x r1 + rect_w r1 <= rect_x r2)%Z.
Proof.
  apply (calculate_segments_ordered [(1, 2); (2, 3)] 4
           {| rect_x := 10; rect_y := 5; rect_w := 100; rect_h := 8 |} 0 1 1 2 2 3);
    [reflexivity | vm_compute; discriminate | reflexivity | reflexivity | vm_compute; discriminate].
Defined.

Lemma worker_run_signals_witness :
  worker_run true true false (Ok 7%nat) = []
  \/ exists s, s = SigResult 7%nat
       /\ (worker_run true true false (Ok 7%nat) = [s]
           \/ worker_run true true false (Ok 7%nat) = [s; SigFinished]).
Proof.
  apply (worker_run_signals true true false (Ok 7%nat)); intro H; reflexivity.
Defined.

Lemma load_model_cache_witness :
  let h := {| arch := "swin_tiny_patch4_window7_224";
              weights := "../models/ad_classifier_swin.pth" |} in
  load_model fs_demo [] "Swin" = (Ok (Some h), [("Swin", h)])
  /\ load_model fs_demo [("Swin", h)] "Swin" = (Ok (Some h), [("Swin", h)]).
Proof.
  intro h. assert (H : load_model fs_demo [] "Swin" = (Ok (Some h), [("Swin", h)]))
    by reflexivity.
  split; [exact H|].
  apply (proj2 (load_model_cache fs_demo [] "Swin" _ _ H) h eq_refl).
Defined.

Lemma parse_time_minutes_seconds_witness :
  strip " 2:05 " = String.append "2" (String ":" "05")
  /\ parse_time " 2:05 " = Some 125%Z.
Proof.
  split; [reflexivity|].
  apply (parse_time_minutes_seconds " 2:05 " "2" "05"); reflexivity.
Defined.

Lemma parse_time_three_parts_none_witness :
  strip "1:02:03" = String.append "1" (String ":" (String.append "02" (String ":" "03")))
  /\ parse_time "1:02:03" = None.
Proof.
  split; [reflexivity|].
  apply (parse_time_three_parts_none "1:02:03" "1" "02" "03"). reflexivity.
Defined.

Lemma format_time_parse_time_witness :
  format_time (251 # 2) = "02:05"
  /\ parse_time (format_time (251 # 2)) = Some 125%Z.
Proof.
  split; [vm_compute; reflexivity|].
  apply (format_time_parse_time (251 # 2)); [discriminate | vm_compute; reflexivity].
Defined.

Lemma duration_split_bounds_witness :
  duration_split 85 = (1%Z, 25%Z)
  /\ Z.le 0 (fst (duration_split 85)).
Proof.
  split; [vm_compute; reflexivity|].
  apply (proj2 (proj2 (duration_split_bounds 85 ltac:(discriminate) ltac:(vm_compute; reflexivity)))).
Defined.
